(** * Contact manager: the record store of [contact_manager.py]

    A shallow embedding of the class [ContactManager] (the record list,
    the bounded undo log, validation, duplicate detection, search, CSV
    import and export, loading, backup restore and undo) and of the
    parts of [ContactManagerGUI] that decide what the store is asked to
    do (the add form, the filtered view, the pages of the table),
    followed by the properties of the store that the specification
    states and by further properties read off the code.

    Conventions of the embedding.
    - A contact is the dict with the seven keys written by [add_contact];
      it is a record here, and [getitem] is the dict lookup by key.
    - Strings are Rocq strings over the one-byte alphabet; [lower],
      [strip] and the regular expression of [validate_inputs] are the
      ASCII restrictions of the Python ones.
    - [uuid.uuid4()], [datetime.now()] and the contents of the files that
      are read are inputs of the operations (arguments named [uuid],
      [now], [stamp], [file], [backup]).
    - The packages [phonenumbers] and [email_validator] are not part of
      the program; they are the interface [Externals].
    - The disk is a finite table from paths to stored record lists.  Runs
      in which writing the table raises [IOError] are outside the model. *)

From Stdlib Require Import String Ascii List Bool Arith Lia Permutation.
Import ListNotations.

Open Scope string_scope.
Open Scope list_scope.
Open Scope nat_scope.

(** ** Python strings *)

Module Py.

(** [str.isspace] on one ASCII character: TAB..CR, FS..US and space. *)
Definition isspace (c : ascii) : bool :=
  let n := nat_of_ascii c in
  ((9 <=? n) && (n <=? 13)) || ((28 <=? n) && (n <=? 32)).

Definition isupper (c : ascii) : bool :=
  let n := nat_of_ascii c in (65 <=? n) && (n <=? 90).

Definition islower (c : ascii) : bool :=
  let n := nat_of_ascii c in (97 <=? n) && (n <=? 122).

Definition lower_char (c : ascii) : ascii :=
  if isupper c then ascii_of_nat (nat_of_ascii c + 32) else c.

(** [s.lower()] *)
Fixpoint lower (s : string) : string :=
  match s with
  | EmptyString => EmptyString
  | String c r => String (lower_char c) (lower r)
  end.

Fixpoint lstrip (s : string) : string :=
  match s with
  | String c r => if isspace c then lstrip r else s
  | EmptyString => EmptyString
  end.

Fixpoint rstrip (s : string) : string :=
  match s with
  | EmptyString => EmptyString
  | String c r =>
      match rstrip r with
      | EmptyString => if isspace c then EmptyString else String c EmptyString
      | r' => String c r'
      end
  end.

(** [s.strip()] *)
Definition strip (s : string) : string := rstrip (lstrip s).

(** [sub in s] *)
Fixpoint contains (sub s : string) : bool :=
  prefix sub s ||
  match s with
  | EmptyString => false
  | String _ r => contains sub r
  end.

(** Truth value of a string: [if s:] *)
Definition truthy (s : string) : bool :=
  match s with EmptyString => false | _ => true end.

Fixpoint forall_chars (p : ascii -> bool) (s : string) : bool :=
  match s with
  | EmptyString => true
  | String c r => p c && forall_chars p r
  end.

(** [dict.get(key, default)] on a cell that may be absent. *)
Definition get_default (cell : option string) (default : string) : string :=
  match cell with Some v => v | None => default end.

End Py.

(** [re.match(r"^[A-Za-z\s]{1,100}$", name)].  The name was stripped by
    the caller, so the case where [$] matches before a final newline
    does not arise. *)
Definition name_pattern (name : string) : bool :=
  (1 <=? String.length name) && (String.length name <=? 100) &&
  Py.forall_chars (fun c => Py.isupper c || Py.islower c || Py.isspace c) name.

(** ** The packages the store calls *)

(** [phonenumbers.parse(s, None)] ([None] when it raises
    [NumberParseException]), [phonenumbers.is_valid_number],
    [phonenumbers.format_number(_, PhoneNumberFormat.E164)], and
    [validate_email(s, check_deliverability=False)] ([Some msg] when it
    raises [EmailNotValidError(msg)]). *)
Class Externals := {
  PhoneNumber : Type;
  phonenumbers_parse : string -> option PhoneNumber;
  is_valid_number : PhoneNumber -> bool;
  format_number_E164 : PhoneNumber -> string;
  validate_email : string -> option string
}.

(** ** Data model *)

Record contact := mkContact {
  c_id : string;
  c_name : string;
  c_phone : string;
  c_email : string;
  c_category : string;
  c_notes : string;
  c_last_modified : string
}.

Definition contact_eqb (a b : contact) : bool :=
  (c_id a =? c_id b)%string && (c_name a =? c_name b)%string &&
  (c_phone a =? c_phone b)%string && (c_email a =? c_email b)%string &&
  (c_category a =? c_category b)%string && (c_notes a =? c_notes b)%string &&
  (c_last_modified a =? c_last_modified b)%string.



(** The tuples pushed on [undo_stack]: [('add', c)], [('delete', c)],
    [('update', old, new)], [('import', batch)], [('restore', snapshot)].
    The first three hold copies of the dicts.  The batch of an import
    and the snapshot of a restore are copies of the list only: an
    imported dict is shared with the record list, so a later update of
    that record also shows in the entry.  [undo] reads nothing but the
    ids of a batch, which no operation changes, and never reads a
    snapshot, so the entries are kept here as they were pushed. *)
Inductive action :=
| ActAdd (c : contact)
| ActDelete (c : contact)
| ActUpdate (old new : contact)
| ActImport (batch : list contact)
| ActRestore (snapshot : list contact).

(** [deque(maxlen=10)] *)
Definition maxlen : nat := 10.

(** [deque.append]: the item goes to the right end; when the deque then
    holds more than [maxlen] items the leftmost one is dropped. *)
Definition deque_append {A : Type} (x : A) (q : list A) : list A :=
  let q' := q ++ [x] in
  if maxlen <? length q' then tl q' else q'.

(** [deque.pop]: removes and returns the rightmost item. *)
Definition deque_pop {A : Type} (q : list A) : option (list A * A) :=
  match rev q with
  | [] => None
  | x :: r => Some (rev r, x)
  end.

(** The files the store reads and writes: path and stored record list. *)
Definition disk := list (string * list contact).

Fixpoint disk_read (d : disk) (path : string) : option (list contact) :=
  match d with
  | [] => None
  | (p, v) :: r => if (p =? path)%string then Some v else disk_read r path
  end.

Definition disk_write (d : disk) (path : string) (v : list contact) : disk :=
  (path, v) :: filter (fun e => negb (fst e =? path)%string) d.

Record store := mkStore {
  filename : string;
  contacts : list contact;
  undo_stack : list action;
  files : disk
}.

(** Exceptions that escape an operation of the store. *)
Inductive exn :=
| KeyError (key : string)
| AttributeError (message : string).

Inductive outcome (A : Type) :=
| Ret (a : A)
| Raise (e : exn).
Arguments Ret {A} a.
Arguments Raise {A} e.

(** A row as [csv.DictReader] yields it for a line with as many cells
    as the header: [name] and [phone] are read with [row['name']] and
    are columns of the file, the other columns are read with [row.get]
    and may be missing from the header ([None]).  Rows with a missing
    [name] or [phone] column, or cut short by the end of the line, are
    [reader_row] below. *)
Record csv_row := mkRow {
  r_id : option string;
  r_name : string;
  r_phone : string;
  r_email : option string;
  r_category : option string;
  r_notes : option string;
  r_last_modified : option string
}.

(** What [json.load] of a backup gives: the file cannot be opened or
    decoded, it holds something that is not a list, or a record list. *)
Inductive backup_file :=
| BackupUnreadable (err : string)
| BackupNotAList
| BackupList (cs : list contact).

(** ** Operations of [ContactManager] *)

Section Operations.

Context {ext : Externals}.

(** [save_contacts]: when the store file exists it is first copied to
    [<filename>.backup_<stamp>], then the record list is written.
    [stamp] is [datetime.now().strftime('%Y%m%d_%H%M%S')]. *)
Definition backup_name (file stamp : string) : string :=
  (file ++ ".backup_" ++ stamp)%string.

Definition save_contacts (stamp : string) (s : store) : store :=
  let d := files s in
  let d1 := match disk_read d (filename s) with
            | Some old => disk_write d (backup_name (filename s) stamp) old
            | None => d
            end in
  mkStore (filename s) (contacts s) (undo_stack s)
          (disk_write d1 (filename s) (contacts s)).

(** [validate_inputs].  The local [phone] is rebound to the E.164
    string and the function returns the pair [(is_valid, message)]. *)
Definition validate_inputs (name phone email : string) : bool * string :=
  let name := Py.strip name in
  let phone := Py.strip phone in
  let email := Py.strip email in
  if negb (Py.truthy name) then (false, "Name is required.")
  else if negb (name_pattern name) then
    (false, "Name can only contain letters and spaces (max 100 characters).")
  else
    match phonenumbers_parse phone with
    | None => (false, "Invalid phone number format.")
    | Some parsed_phone =>
        if negb (is_valid_number parsed_phone) then
          (false, "Invalid phone number format (e.g., +1234567890).")
        else
          let phone := format_number_E164 parsed_phone in
          if Py.truthy email then
            match validate_email email with
            | Some e => (false, ("Invalid email format: " ++ e)%string)
            | None => (true, "")
            end
          else (true, "")
    end.

(** The [try] block of [is_duplicate]: the E.164 string of the
    argument, or the argument itself when parsing raises. *)
Definition normalized_phone (phone : string) : string :=
  match phonenumbers_parse phone with
  | Some parsed_phone => format_number_E164 parsed_phone
  | None => phone
  end.

(** The condition of the loop of [is_duplicate] on one record. *)
Definition duplicate_of (name nphone email : string) (c : contact) : bool :=
  (Py.lower (c_name c) =? Py.lower name)%string
  || (c_phone c =? nphone)%string
  || (Py.truthy email && (Py.lower (c_email c) =? Py.lower email)%string).

Definition is_duplicate (s : store) (name phone email : string) : bool :=
  existsb (duplicate_of name (normalized_phone phone) email) (contacts s).

(** [add_contact]; [uuid] is [str(uuid.uuid4())], [now] is
    [datetime.now().isoformat()]. *)
Definition add_contact (uuid now stamp : string)
    (name phone email category notes : string) (s : store)
    : option contact * store :=
  let contact := mkContact uuid name phone email category notes now in
  if is_duplicate s name phone email then (None, s)
  else
    let undo' := deque_append (ActAdd contact) (undo_stack s) in
    let contacts' := contacts s ++ [contact] in
    (Some contact,
     save_contacts stamp (mkStore (filename s) contacts' undo' (files s))).

(** The loop of [update_contact]: the first record with the id is
    overwritten in place; the result is the record before, the record
    after and the new list. *)
Fixpoint update_first (contact_id : string) (f : contact -> contact)
    (cs : list contact) : option (contact * contact * list contact) :=
  match cs with
  | [] => None
  | c :: r =>
      if (c_id c =? contact_id)%string then Some (c, f c, f c :: r)
      else match update_first contact_id f r with
           | Some (old, new, r') => Some (old, new, c :: r')
           | None => None
           end
  end.

Definition update_contact (now stamp : string)
    (contact_id name phone email category notes : string) (s : store)
    : bool * store :=
  let assign c := mkContact (c_id c) name phone email category notes now in
  match update_first contact_id assign (contacts s) with
  | None => (false, s)
  | Some (old_contact, new_contact, contacts') =>
      let undo' := deque_append (ActUpdate old_contact new_contact)
                                (undo_stack s) in
      (true, save_contacts stamp
               (mkStore (filename s) contacts' undo' (files s)))
  end.

Fixpoint find_by_id (contact_id : string) (cs : list contact)
    : option contact :=
  match cs with
  | [] => None
  | c :: r => if (c_id c =? contact_id)%string then Some c
              else find_by_id contact_id r
  end.

(** [list.remove(x)]: drops the first item equal to [x]. *)
Fixpoint list_remove (x : contact) (cs : list contact) : list contact :=
  match cs with
  | [] => []
  | c :: r => if contact_eqb c x then r else c :: list_remove x r
  end.

Definition delete_contact (stamp : string) (contact_id : string)
    (s : store) : bool * store :=
  match find_by_id contact_id (contacts s) with
  | None => (false, s)
  | Some contact =>
      let undo' := deque_append (ActDelete contact) (undo_stack s) in
      let contacts' := list_remove contact (contacts s) in
      (true, save_contacts stamp
               (mkStore (filename s) contacts' undo' (files s)))
  end.

(** The [if]/[elif] chain of [undo] on the popped action.  The chain
    has the branches ['add'], ['delete'], ['update'] and ['import'];
    a ['restore'] tuple matches none of them. *)
Definition revert (a : action) (cs : list contact) : list contact :=
  match a with
  | ActAdd c => filter (fun x => negb (c_id x =? c_id c)%string) cs
  | ActDelete c => cs ++ [c]
  | ActUpdate old new =>
      map (fun x => if (c_id x =? c_id new)%string then old else x) cs
  | ActImport batch =>
      let imported_ids := map c_id batch in
      filter (fun x => negb (existsb (String.eqb (c_id x)) imported_ids)) cs
  | ActRestore _ => cs
  end.

Definition undo (stamp : string) (s : store) : bool * store :=
  match deque_pop (undo_stack s) with
  | None => (false, s)
  | Some (rest, a) =>
      (true, save_contacts stamp
               (mkStore (filename s) (revert a (contacts s)) rest (files s)))
  end.

Definition view_contacts (s : store) : list contact := contacts s.




(** The dict built for a row that passed both checks; [uuid] and [now]
    are the defaults computed for that row. *)
Definition contact_of_row (uuid now : string) (row : csv_row) : contact :=
  mkContact (Py.get_default (r_id row) uuid)
            (r_name row) (r_phone row)
            (Py.get_default (r_email row) "")
            (Py.get_default (r_category row) "Other")
            (Py.get_default (r_notes row) "")
            (Py.get_default (r_last_modified row) now).

Definition skip_warning (name error_message : string) : string :=
  ("Skipping invalid contact " ++ name ++ ": " ++ error_message)%string.

(** The [for row in reader] loop of [import_from_csv].  [i] is the
    index of the row, [uuid4 i] and [now i] the values drawn for it;
    [imported] and [warnings] are the batch and the message boxes so
    far.  The duplicate check reads [self.contacts], which the loop
    does not change. *)
Fixpoint import_loop (s : store) (uuid4 now : nat -> string) (i : nat)
    (rows : list csv_row) (imported : list contact) (warnings : list string)
    : list contact * list string :=
  match rows with
  | [] => (imported, warnings)
  | row :: rest =>
      let email := Py.get_default (r_email row) "" in
      let '(is_valid, error_message) :=
        validate_inputs (r_name row) (r_phone row) email in
      if negb is_valid then
        import_loop s uuid4 now (S i) rest imported
          (warnings ++ [skip_warning (r_name row) error_message])
      else if negb (is_duplicate s (r_name row) (r_phone row) email) then
        import_loop s uuid4 now (S i) rest
          (imported ++ [contact_of_row (uuid4 i) (now i) row]) warnings
      else import_loop s uuid4 now (S i) rest imported warnings
  end.

(** [import_from_csv]; [file] is [None] when opening or reading the
    CSV file raises [IOError] ([err] is then the text of the error).
    The result is the returned boolean, the message boxes shown and
    the store. *)
Definition import_from_csv (uuid4 now : nat -> string) (stamp err : string)
    (file : option (list csv_row)) (s : store)
    : bool * list string * store :=
  match file with
  | None => (false, [("Failed to import contacts: " ++ err)%string], s)
  | Some rows =>
      let '(imported_contacts, warnings) :=
        import_loop s uuid4 now 0 rows [] [] in
      match imported_contacts with
      | [] => (true, warnings, s)
      | _ :: _ =>
          let undo' := deque_append (ActImport imported_contacts)
                                    (undo_stack s) in
          let contacts' := contacts s ++ imported_contacts in
          (true, warnings,
           save_contacts stamp
             (mkStore (filename s) contacts' undo' (files s)))
      end
  end.

(** [restore_backup] *)
Definition restore_backup (stamp : string) (backup : backup_file)
    (s : store) : bool * list string * store :=
  match backup with
  | BackupUnreadable err =>
      (false, [("Failed to restore backup: " ++ err)%string], s)
  | BackupNotAList => (false, [], s)
  | BackupList cs =>
      let undo' := deque_append (ActRestore (contacts s)) (undo_stack s) in
      (true, [], save_contacts stamp
                   (mkStore (filename s) cs undo' (files s)))
  end.

End Operations.

(** ** Specification-side definitions *)

Section Spec.

Context {ext : Externals}.

(** The canonical E.164 form of a phone string, when it has one. *)
Definition e164 (phone : string) : option string :=
  option_map format_number_E164 (phonenumbers_parse (Py.strip phone)).


(** A row passes validation / is a duplicate of a stored record. *)
Definition row_valid (row : csv_row) : bool :=
  fst (validate_inputs (r_name row) (r_phone row)
                       (Py.get_default (r_email row) "")).

Definition row_duplicate (s : store) (row : csv_row) : bool :=
  is_duplicate s (r_name row) (r_phone row) (Py.get_default (r_email row) "").

(** Rows numbered from [i]. *)
Fixpoint numbered (i : nat) (rows : list csv_row) : list (nat * csv_row) :=
  match rows with
  | [] => []
  | row :: rest => (i, row) :: numbered (S i) rest
  end.

(** The rows that survive filtering, as records. *)
Definition surviving (s : store) (uuid4 now : nat -> string)
    (rows : list csv_row) : list contact :=
  map (fun ir => contact_of_row (uuid4 (fst ir)) (now (fst ir)) (snd ir))
      (filter (fun ir => row_valid (snd ir) && negb (row_duplicate s (snd ir)))
              (numbered 0 rows)).

(** One warning per invalid row, in order. *)
Definition skip_warnings (rows : list csv_row) : list string :=
  map (fun row =>
         skip_warning (r_name row)
           (snd (validate_inputs (r_name row) (r_phone row)
                                 (Py.get_default (r_email row) ""))))
      (filter (fun row => negb (row_valid row)) rows).

Definition ids (cs : list contact) : list string := map c_id cs.

End Spec.

(** ** Sequences of calls *)

(** One call on the store by the presentation layer. *)
Inductive command :=
| CmdAdd (uuid now stamp name phone email category notes : string)
| CmdUpdate (now stamp contact_id name phone email category notes : string)
| CmdDelete (stamp contact_id : string)
| CmdImport (uuid4 now : nat -> string) (stamp : string) (rows : list csv_row)
| CmdRestore (stamp : string) (cs : list contact)
| CmdUndo (stamp : string).

Section Runs.

Context {ext : Externals}.

(** The store after the call, and whether the call changed the record
    list: [add_contact] returned the record, [update_contact],
    [delete_contact], [restore_backup] and [undo] returned [True],
    [import_from_csv] returned [True] with a batch that is not empty. *)
Definition exec (c : command) (s : store) : bool * store :=
  match c with
  | CmdAdd uuid now stamp name phone email category notes =>
      match add_contact uuid now stamp name phone email category notes s with
      | (Some _, s') => (true, s')
      | (None, s') => (false, s')
      end
  | CmdUpdate now stamp contact_id name phone email category notes =>
      update_contact now stamp contact_id name phone email category notes s
  | CmdDelete stamp contact_id => delete_contact stamp contact_id s
  | CmdImport uuid4 now stamp rows =>
      let '(ok, _, s') := import_from_csv uuid4 now stamp "" (Some rows) s in
      (ok && negb (length (contacts s') =? length (contacts s)), s')
  | CmdRestore stamp cs =>
      let '(ok, _, s') := restore_backup stamp (BackupList cs) s in (ok, s')
  | CmdUndo stamp => undo stamp s
  end.

(** The forward mutations: every call but [undo]. *)
Definition is_mutation (c : command) : bool :=
  match c with CmdUndo _ => false | _ => true end.

Definition steps (cmds : list command) (s : store) : store :=
  fold_left (fun st c => snd (exec c st)) cmds s.

(** The entry at the right end of the log. *)
Definition newest (s : store) : option action :=
  option_map snd (deque_pop (undo_stack s)).

(** The inverse action descriptor of a mutation, as the data model of
    the specification lists them: [Add(record)], [Delete(record)],
    [Update(before, after)], [Import(list_of_records)],
    [Restore(previous_full_list)]. *)
Definition inverse_descriptor (c : command) (s : store) : option action :=
  match c with
  | CmdAdd uuid now _ name phone email category notes =>
      Some (ActAdd (mkContact uuid name phone email category notes now))
  | CmdUpdate now _ contact_id name phone email category notes =>
      option_map
        (fun before =>
           ActUpdate before
             (mkContact (c_id before) name phone email category notes now))
        (find_by_id contact_id (contacts s))
  | CmdDelete _ contact_id =>
      option_map ActDelete (find_by_id contact_id (contacts s))
  | CmdImport uuid4 now _ rows =>
      Some (ActImport (surviving s uuid4 now rows))
  | CmdRestore _ _ => Some (ActRestore (contacts s))
  | CmdUndo _ => None
  end.

(** A sequence of mutations that all succeed: the descriptor of each
    of them, in order, and the final store. *)
Fixpoint run (cmds : list command) (s : store)
    : option (list action * store) :=
  match cmds with
  | [] => Some ([], s)
  | c :: r =>
      if is_mutation c && fst (exec c s) then
        match inverse_descriptor c s, run r (snd (exec c s)) with
        | Some e, Some (es, s') => Some (e :: es, s')
        | _, _ => None
        end
      else None
  end.

(** The [maxlen] most recent entries of a history. *)
Definition most_recent {A : Type} (history : list A) : list A :=
  skipn (length history - maxlen) history.

End Runs.

(** ** An executable instance of the packages

    Enough of the two packages to run the store on sample inputs: a
    phone string parses when, stripped, it is a [+] followed by digits
    and the separators space, [-], [.], [(] and [)] (with no default
    region, as in [parse(s, None)], a string without the [+] is
    rejected); the parsed number is its digit string; it is valid with
    8 to 15 digits; an address is accepted when it has an [@]. *)

Module Reference.

Definition is_digit (c : ascii) : bool :=
  let n := nat_of_ascii c in (48 <=? n) && (n <=? 57).

Definition is_separator (c : ascii) : bool :=
  let n := nat_of_ascii c in
  (n =? 32) || (n =? 45) || (n =? 46) || (n =? 40) || (n =? 41).

Fixpoint digits_of (s : string) : option string :=
  match s with
  | EmptyString => Some EmptyString
  | String c r =>
      if is_digit c then option_map (String c) (digits_of r)
      else if is_separator c then digits_of r
      else None
  end.

Definition parse (s : string) : option string :=
  match Py.strip s with
  | String "+" r =>
      match digits_of r with
      | Some EmptyString => None
      | other => other
      end
  | _ => None
  end.

Definition valid (digits : string) : bool :=
  (8 <=? String.length digits) && (String.length digits <=? 15).

Definition format_E164 (digits : string) : string := String "+" digits.

Definition check_email (email : string) : option string :=
  if Py.contains "@" email then None
  else Some "An email address must have an @-sign.".

Definition externals : Externals :=
  {| PhoneNumber := string;
     phonenumbers_parse := parse;
     is_valid_number := valid;
     format_number_E164 := format_E164;
     validate_email := check_email |}.

Definition empty_store : store := mkStore "contacts.json" [] [] [].

End Reference.


(** ** Sample data *)

Module Samples.

Definition jane : contact :=
  mkContact "id-jane" "Jane Doe" "+14155552671" "jane@example.com"
            "Work" "" "2024-01-01T10:00:00".

Definition omar : contact :=
  mkContact "id-omar" "Omar Said" "+442079460958" "" "Family" "cousin"
            "2024-01-02T09:30:00".

Definition jane_store : store :=
  mkStore "contacts.json" [jane] [ActAdd jane] [("contacts.json", [jane])].

Definition two_store : store :=
  mkStore "contacts.json" [jane; omar] [ActAdd jane; ActAdd omar]
          [("contacts.json", [jane; omar])].

Definition sample_uuid4 (i : nat) : string :=
  match i with 0 => "uuid-a" | 1 => "uuid-b" | 2 => "uuid-c" | _ => "uuid-d" end.

Definition sample_now (i : nat) : string := "2024-04-01T12:00:00".

Definition row_of (name phone : string) : csv_row :=
  mkRow None name phone None None None None.

(** Two valid rows and one row whose phone does not parse. *)
Definition three_rows : list csv_row :=
  [row_of "Ada Byron" "+14155552671";
   row_of "Bad Phone" "not a number";
   row_of "Carl Gauss" "+442079460958"].


(** Eleven adds of people with different names and phones. *)
Definition add_of (tag : string) : command :=
  CmdAdd ("id-" ++ tag)%string "2024-05-01T09:00:00" "20240501_090000"
         ("Person " ++ tag)%string ("+1415555267" ++ tag)%string ""
         "Other" "".

Definition eleven_adds : list command :=
  map add_of ["a"; "b"; "c"; "d"; "e"; "f"; "g"; "h"; "i"; "j"; "k"].

End Samples.

(** ** Loading, exporting and the presentation layer *)

(** A record of the store file as [json.load] gives it: the keys [id],
    [category], [notes] and [last_modified] may be missing. *)
Record json_record := mkJson {
  j_id : option string;
  j_name : string;
  j_phone : string;
  j_email : string;
  j_category : option string;
  j_notes : option string;
  j_last_modified : option string
}.

(** The store file as [load_contacts] finds it: absent, not readable or
    not JSON ([err] is the text of the exception), JSON that is not a
    list, or a list of records. *)
Inductive json_file :=
| JsonMissing
| JsonUnreadable (err : string)
| JsonNotAList
| JsonList (records : list json_record).

(** The four [if key not in contact] assignments of [load_contacts] on
    one record; [uuid] and [now] are the values drawn for it. *)
Definition backfill (uuid now : string) (r : json_record) : contact :=
  mkContact (Py.get_default (j_id r) uuid)
            (j_name r) (j_phone r) (j_email r)
            (Py.get_default (j_category r) "Other")
            (Py.get_default (j_notes r) "")
            (Py.get_default (j_last_modified r) now).

(** The [for contact in contacts] loop of [load_contacts]; [i] is the
    index of the record. *)
Fixpoint load_loop (uuid4 now : nat -> string) (i : nat)
    (records : list json_record) : list contact :=
  match records with
  | [] => []
  | r :: rest => backfill (uuid4 i) (now i) r :: load_loop uuid4 now (S i) rest
  end.

(** [load_contacts]: the returned list, the message boxes and the store.
    Only a list that was read is assigned to [self.contacts]. *)
Definition load_contacts (uuid4 now : nat -> string) (file : json_file)
    (s : store) : list contact * list string * store :=
  match file with
  | JsonMissing => ([], [], s)
  | JsonUnreadable err =>
      ([], [("Failed to load contacts: " ++ err
             ++ ". Starting with empty list.")%string], s)
  | JsonNotAList => ([], [], s)
  | JsonList records =>
      let contacts' := load_loop uuid4 now 0 records in
      (contacts', [],
       mkStore (filename s) contacts' (undo_stack s) (files s))
  end.

(** [self.categories] *)
Definition categories : list string := ["Work"; "Personal"; "Family"; "Other"].

(** [ContactManager.__init__]: an empty list, an empty deque, then
    [load_contacts]. *)
Definition init (file_name : string) (d : disk) (uuid4 now : nat -> string)
    (file : json_file) : list string * store :=
  let '(_, warnings, s) :=
    load_contacts uuid4 now file (mkStore file_name [] [] d) in
  (warnings, s).

(** What [json.load] gives for a file that [save_contacts] wrote. *)
Definition json_of_contact (c : contact) : json_record :=
  mkJson (Some (c_id c)) (c_name c) (c_phone c) (c_email c)
         (Some (c_category c)) (Some (c_notes c)) (Some (c_last_modified c)).

Definition json_of_disk (d : disk) (path : string) : json_file :=
  match disk_read d path with
  | None => JsonMissing
  | Some cs => JsonList (map json_of_contact cs)
  end.

(** The dict that [writer.writerow(contact)] writes, as a row with the
    seven columns of the header. *)
Definition row_of_contact (c : contact) : csv_row :=
  mkRow (Some (c_id c)) (c_name c) (c_phone c) (Some (c_email c))
        (Some (c_category c)) (Some (c_notes c)) (Some (c_last_modified c)).

(** [export_to_csv]; [failure] is [Some err] when opening or writing the
    file raises [IOError].  The result is the returned boolean, the
    message boxes and, when the call succeeds, the rows written under
    the header. *)
Definition export_to_csv (failure : option string) (s : store)
    : bool * list string * option (list csv_row) :=
  match failure with
  | Some err => (false, [("Failed to export contacts: " ++ err)%string], None)
  | None => (true, [], Some (map row_of_contact (contacts s)))
  end.

(** What [restore_backup] reads at a path of the disk. *)
Definition backup_of_disk (d : disk) (path : string) : backup_file :=
  match disk_read d path with
  | Some cs => BackupList cs
  | None => BackupUnreadable "[Errno 2] No such file or directory"
  end.

(** The store file holds the record list in memory. *)
Definition synced (s : store) : Prop :=
  disk_read (files s) (filename s) = Some (contacts s).

(** The stamp a call hands to [save_contacts]. *)
Definition stamp_of (c : command) : string :=
  match c with
  | CmdAdd _ _ stamp _ _ _ _ _ => stamp
  | CmdUpdate _ stamp _ _ _ _ _ _ => stamp
  | CmdDelete stamp _ => stamp
  | CmdImport _ _ stamp _ => stamp
  | CmdRestore stamp _ => stamp
  | CmdUndo stamp => stamp
  end.

(** What the window does, in order: values set on the status bar,
    message boxes, and the two refresh calls. *)
Inductive ui_event :=
| Status (text : string)
| ShowError (title text : string)
| ShowInfo (title text : string)
| ShowWarning (title text : string)
| AskYesNo (title text : string)
| UpdateContactTable.

(** [clear_entries] resets the input widgets and sets the status bar. *)
Definition clear_entries : list ui_event := [Status "Fields cleared."].

Section Presentation.

Context {ext : Externals}.

(** [ContactManagerGUI.add_contact].  The arguments are the texts of
    the widgets and [add_anyway], the answer to the question that is
    asked when a duplicate is detected. *)
Definition gui_add_contact (uuid now stamp : string)
    (name_entry phone_entry email_entry category_combobox notes_text : string)
    (add_anyway : bool) (s : store) : list ui_event * store :=
  let name := Py.strip name_entry in
  let phone := Py.strip phone_entry in
  let email := Py.strip email_entry in
  let category := category_combobox in
  let notes := Py.strip notes_text in
  let '(is_valid, error_message) := validate_inputs name phone email in
  if negb is_valid then
    ([Status error_message; ShowError "Error" error_message], s)
  else
    let question :=
      AskYesNo "Duplicate Detected" "A similar contact exists. Add anyway?" in
    let dup := is_duplicate s name phone email in
    if dup && negb add_anyway then
      ([question; Status "Add contact cancelled."], s)
    else
      let asked := if dup then [question] else [] in
      match add_contact uuid now stamp name phone email category notes s with
      | (Some _, s') =>
          (asked ++ [Status "Contact added successfully.";
                     ShowInfo "Success" "Contact added successfully."]
                 ++ clear_entries ++ [UpdateContactTable], s')
      | (None, s') =>
          (asked ++ [Status "Duplicate contact detected.";
                     ShowWarning "Warning" "Duplicate contact not added."], s')
      end.

(** The name-conflict loop of [ContactManagerGUI.update_contact]: one
    question for each other record with the same name up to letter
    case, until one is answered no.  [answer k] is the answer to the
    question number [k]; the result tells whether the update goes on,
    with the questions asked. *)
Fixpoint conflict_loop (contact_id name : string) (answer : nat -> bool)
    (k : nat) (cs : list contact) : bool * list ui_event :=
  match cs with
  | [] => (true, [])
  | c :: r =>
      if negb (c_id c =? contact_id)%string
         && (Py.lower (c_name c) =? Py.lower name)%string then
        let question :=
          AskYesNo "Name Conflict"
            ("A contact with name '" ++ name ++ "' exists. Update anyway?")%string in
        if negb (answer k) then (false, [question; Status "Update cancelled."])
        else
          let '(go, events) := conflict_loop contact_id name answer (S k) r in
          (go, question :: events)
      else conflict_loop contact_id name answer k r
  end.

(** [ContactManagerGUI.update_contact]; [selected] is the id that the
    selected row of the table hands back, if a row is selected. *)
Definition gui_update_contact (now stamp : string) (selected : option string)
    (name_entry phone_entry email_entry category_combobox notes_text : string)
    (answer : nat -> bool) (s : store) : list ui_event * store :=
  match selected with
  | None =>
      ([Status "Select a contact to update.";
        ShowWarning "Warning" "Please select a contact to update."], s)
  | Some contact_id =>
      let name := Py.strip name_entry in
      let phone := Py.strip phone_entry in
      let email := Py.strip email_entry in
      let category := category_combobox in
      let notes := Py.strip notes_text in
      let '(is_valid, error_message) := validate_inputs name phone email in
      if negb is_valid then
        ([Status error_message; ShowError "Error" error_message], s)
      else
        let '(go, asked) :=
          conflict_loop contact_id name answer 0 (view_contacts s) in
        if negb go then (asked, s)
        else
          match update_contact now stamp contact_id name phone email
                  category notes s with
          | (true, s') =>
              (asked ++ [Status "Contact updated successfully.";
                         ShowInfo "Success" "Contact updated successfully."]
                     ++ clear_entries ++ [UpdateContactTable], s')
          | (false, s') =>
              (asked ++ [Status "Contact not found.";
                         ShowError "Error" "Contact not found."], s')
          end
  end.



End Presentation.

(** ** Rows as the CSV reader hands them over *)

(** A Python value that is a string or [None]. *)
Inductive pyval :=
| PyNone
| PyStr (v : string).

(** A cell of a [csv.DictReader] row: the header has no such column
    (the key is not in the dict), the line ended before the column
    (the reader fills the key with [None]), or the text of the cell. *)
Inductive cell :=
| NoColumn
| ShortLine
| Text (v : string).

(** A row of the reader.  The cells that [import_from_csv] hands to
    [validate_inputs] are full cells.  In the four other columns a row
    of this type has a text or no column: a [None] there raises nothing
    in the import, and the dict then stored is not a record of the
    store. *)
Record reader_row := mkReaderRow {
  d_id : option string;
  d_name : cell;
  d_phone : cell;
  d_email : cell;
  d_category : option string;
  d_notes : option string;
  d_last_modified : option string
}.

(** [row[key]] *)
Definition subscript (key : string) (c : cell) : outcome pyval :=
  match c with
  | NoColumn => Raise (KeyError key)
  | ShortLine => Ret PyNone
  | Text v => Ret (PyStr v)
  end.

(** [row.get(key, default)] *)
Definition get_cell (c : cell) (default : string) : pyval :=
  match c with
  | NoColumn => PyStr default
  | ShortLine => PyNone
  | Text v => PyStr v
  end.

(** What [v.strip()] raises when [v] is [None]. *)
Definition none_has_no_strip : exn :=
  AttributeError "'NoneType' object has no attribute 'strip'".

(** The row whose cells are all strings, if they are. *)
Definition typed_row (row : reader_row) : option csv_row :=
  match d_name row, d_phone row, d_email row with
  | Text n, Text p, Text e =>
      Some (mkRow (d_id row) n p (Some e) (d_category row) (d_notes row)
                  (d_last_modified row))
  | Text n, Text p, NoColumn =>
      Some (mkRow (d_id row) n p None (d_category row) (d_notes row)
                  (d_last_modified row))
  | _, _, _ => None
  end.

Fixpoint typed_rows (rows : list reader_row) : option (list csv_row) :=
  match rows with
  | [] => Some []
  | row :: rest =>
      match typed_row row, typed_rows rest with
      | Some r, Some rs => Some (r :: rs)
      | _, _ => None
      end
  end.

Section Reader.

Context {ext : Externals}.

(** The call [self.validate_inputs(row['name'], row['phone'],
    row.get('email', ''))] on a row of the reader: the three arguments
    are evaluated from left to right, then [validate_inputs] starts
    with [name.strip()], [phone.strip()] and [email.strip()].  The
    result is the three strings with the verdict, or the exception. *)
Definition read_and_validate (row : reader_row)
    : outcome (string * string * string * (bool * string)) :=
  match subscript "name" (d_name row) with
  | Raise e => Raise e
  | Ret name =>
      match subscript "phone" (d_phone row) with
      | Raise e => Raise e
      | Ret phone =>
          let email := get_cell (d_email row) "" in
          match name with
          | PyNone => Raise none_has_no_strip
          | PyStr n =>
              match phone with
              | PyNone => Raise none_has_no_strip
              | PyStr p =>
                  match email with
                  | PyNone => Raise none_has_no_strip
                  | PyStr e => Ret (n, p, e, validate_inputs n p e)
                  end
              end
          end
      end
  end.

(** The [for row in reader] loop of [import_from_csv] on the rows of
    the reader: the message boxes shown, and the batch or the exception
    that ends the loop. *)
Fixpoint reader_loop (s : store) (uuid4 now : nat -> string) (i : nat)
    (rows : list reader_row) (imported : list contact)
    (warnings : list string) : list string * outcome (list contact) :=
  match rows with
  | [] => (warnings, Ret imported)
  | row :: rest =>
      match read_and_validate row with
      | Raise e => (warnings, Raise e)
      | Ret (name, phone, email, (is_valid, error_message)) =>
          if negb is_valid then
            reader_loop s uuid4 now (S i) rest imported
              (warnings ++ [skip_warning name error_message])
          else if negb (is_duplicate s name phone email) then
            reader_loop s uuid4 now (S i) rest
              (imported ++
                 [mkContact (Py.get_default (d_id row) (uuid4 i))
                    name phone email
                    (Py.get_default (d_category row) "Other")
                    (Py.get_default (d_notes row) "")
                    (Py.get_default (d_last_modified row) (now i))])
              warnings
          else reader_loop s uuid4 now (S i) rest imported warnings
      end
  end.

(** [import_from_csv] on the rows of the reader.  [file] is [None] when
    opening or reading the file raises [IOError], which the function
    catches; any other exception leaves the function, and the store is
    then as it was.  The result is the message boxes shown and the
    returned boolean with the store, or the exception. *)
Definition import_from_reader (uuid4 now : nat -> string) (stamp err : string)
    (file : option (list reader_row)) (s : store)
    : list string * outcome (bool * store) :=
  match file with
  | None => ([("Failed to import contacts: " ++ err)%string], Ret (false, s))
  | Some rows =>
      match reader_loop s uuid4 now 0 rows [] [] with
      | (warnings, Raise e) => (warnings, Raise e)
      | (warnings, Ret []) => (warnings, Ret (true, s))
      | (warnings, Ret imported_contacts) =>
          let undo' := deque_append (ActImport imported_contacts)
                                    (undo_stack s) in
          let contacts' := contacts s ++ imported_contacts in
          (warnings,
           Ret (true,
                save_contacts stamp
                  (mkStore (filename s) contacts' undo' (files s))))
      end
  end.

End Reader.

(** Pagination of the table. *)
Definition contacts_per_page : nat := 20.

(** The slice [contacts[start:end]] that [update_contact_table] shows. *)
Definition page_rows (current_page : nat) (cs : list contact) : list contact :=
  let start := (current_page - 1) * contacts_per_page in
  let end_ := start + contacts_per_page in
  firstn (end_ - start) (skipn start cs).

(** The page count written on the label:
    [max(1, (len(contacts) + per_page - 1) // per_page)]. *)
Definition page_total (cs : list contact) : nat :=
  Nat.max 1 ((length cs + contacts_per_page - 1) / contacts_per_page).

(** [max_pages] of [next_page]. *)
Definition max_pages (cs : list contact) : nat :=
  (length cs + contacts_per_page - 1) / contacts_per_page.

(** The page after [next_page] and [prev_page]; [cs] is the list that
    [get_filtered_contacts] returned. *)
Definition next_page (current_page : nat) (cs : list contact) : nat :=
  if current_page <? max_pages cs then current_page + 1 else current_page.

Definition prev_page (current_page : nat) : nat :=
  if 1 <? current_page then current_page - 1 else current_page.

(** The pages [1 .. n], one after the other. *)
Definition pages_upto (n : nat) (cs : list contact) : list contact :=
  flat_map (fun p => page_rows p cs) (seq 1 n).


(** The record passes [validate_inputs]. *)
Definition contact_valid {ext : Externals} (c : contact) : bool :=
  fst (validate_inputs (c_name c) (c_phone c) (c_email c)).

Module MoreSamples.

Definition person (n : nat) : contact :=
  mkContact "id" "Someone" "+14155552671" "" "Other" "" "2024-01-01T00:00:00".

(** Forty-five records: three pages. *)
Definition many : list contact := map person (seq 0 45).

(** Jane and a second record with the phone that Jane has. *)
Definition shared_phone_store : store :=
  mkStore "contacts.json"
    [Samples.jane;
     mkContact "id-kim" "Kim Lee" "+14155550000" "" "Work" ""
               "2024-01-03T00:00:00"]
    [] [("contacts.json", [Samples.jane])].

(** A CSV row that carries the id of the stored record Jane. *)
Definition clash_rows : list csv_row :=
  [mkRow (Some "id-jane") "Zed Young" "+442079460958" None None None None].

(** Ten adds, then a restore of a backup that holds Omar. *)
Definition ten_adds_then_restore : list command :=
  firstn 10 Samples.eleven_adds
  ++ [CmdRestore "20240501_093000" [Samples.omar]].

Definition reader_row_of (name phone : string) : reader_row :=
  mkReaderRow None (Text name) (Text phone) NoColumn None None None.

(** The three rows of [Samples.three_rows], as the reader gives them
    for a file with the columns [name] and [phone]. *)
Definition three_reader_rows : list reader_row :=
  [reader_row_of "Ada Byron" "+14155552671";
   reader_row_of "Bad Phone" "not a number";
   reader_row_of "Carl Gauss" "+442079460958"].

(** A file with the header [name,phone,email] and the one line
    [Al Smith,+14155552671]: the email cell is not there. *)
Definition ragged_rows : list reader_row :=
  [mkReaderRow None (Text "Al Smith") (Text "+14155552671") ShortLine
               None None None].

(** A file with the header [name,email]: no phone column. *)
Definition no_phone_column_rows : list reader_row :=
  [mkReaderRow None (Text "Al Smith") NoColumn (Text "al@example.com")
               None None None].

End MoreSamples.

(** * Properties *)

Example reference_parse_spaced :
  Reference.parse "+1 650 253 0000" = Some "16502530000".
Proof. reflexivity. Qed.

Example reference_parse_no_plus : Reference.parse "12345678900" = None.
Proof. reflexivity. Qed.

Example strip_both_ends : Py.strip "  Jane Doe " = "Jane Doe".
Proof. reflexivity. Qed.

Example lower_mixed : Py.lower "Jane.Doe@Example.COM" = "jane.doe@example.com".
Proof. reflexivity. Qed.

Example contains_inner : Py.contains "ne d" "jane doe" = true.
Proof. reflexivity. Qed.

Example name_pattern_rejects_digit : name_pattern "Jane 2" = false.
Proof. reflexivity. Qed.

Example deque_append_full :
  deque_append 11 [1; 2; 3; 4; 5; 6; 7; 8; 9; 10]
  = [2; 3; 4; 5; 6; 7; 8; 9; 10; 11].
Proof. reflexivity. Qed.

(** ** The bounded log *)

Lemma deque_append_snoc {A : Type} (x : A) (q : list A) :
  deque_append x q = (if maxlen <=? length q then tl q else q) ++ [x].
Proof.
  unfold deque_append. rewrite length_app. cbn [length].
  replace (maxlen <? length q + 1) with (maxlen <=? length q).
  - destruct (maxlen <=? length q) eqn:E; [|reflexivity].
    destruct q as [|a q']; [discriminate E | reflexivity].
  - unfold Nat.ltb. replace (length q + 1) with (S (length q)) by lia.
    reflexivity.
Qed.

Lemma deque_pop_snoc {A : Type} (x : A) (q : list A) :
  deque_pop (q ++ [x]) = Some (q, x).
Proof.
  unfold deque_pop. rewrite rev_app_distr. cbn. now rewrite rev_involutive.
Qed.

Lemma deque_pop_append {A : Type} (x : A) (q : list A) :
  deque_pop (deque_append x q)
  = Some ((if maxlen <=? length q then tl q else q), x).
Proof. rewrite deque_append_snoc. apply deque_pop_snoc. Qed.

Lemma deque_append_length {A : Type} (x : A) (q : list A) :
  length q <= maxlen ->
  length (deque_append x q) = Nat.min maxlen (S (length q)).
Proof.
  intros Hq. rewrite deque_append_snoc, length_app. cbn [length].
  unfold maxlen in *.
  destruct (10 <=? length q) eqn:E.
  - apply Nat.leb_le in E. destruct q as [|a q'].
    + cbn [length] in E. lia.
    + cbn [length tl] in *. lia.
  - apply Nat.leb_gt in E. lia.
Qed.

Lemma deque_pop_length {A : Type} (q rest : list A) (x : A) :
  deque_pop q = Some (rest, x) -> q = rest ++ [x].
Proof.
  unfold deque_pop. destruct (rev q) as [|y r] eqn:E; [discriminate|].
  intros H. injection H as <- <-.
  rewrite <- (rev_involutive q), E. reflexivity.
Qed.

(** ** Saving keeps the record list and the log *)

Lemma save_contacts_contacts stamp s :
  contacts (save_contacts stamp s) = contacts s.
Proof. reflexivity. Qed.

Lemma save_contacts_undo_stack stamp s :
  undo_stack (save_contacts stamp s) = undo_stack s.
Proof. reflexivity. Qed.

(** ** Adding *)

Section AddFacts.

Context {ext : Externals}.

(** What a successful [add_contact] leaves behind: the record holds the
    arguments as they were passed. *)
Lemma add_contact_success uuid now stamp name phone email category notes s c s' :
  add_contact uuid now stamp name phone email category notes s = (Some c, s') ->
  c = mkContact uuid name phone email category notes now
  /\ is_duplicate s name phone email = false
  /\ contacts s' = contacts s ++ [c]
  /\ undo_stack s' = deque_append (ActAdd c) (undo_stack s).
Proof.
  unfold add_contact.
  destruct (is_duplicate s name phone email); [discriminate|].
  intros H. injection H as <- <-. repeat split.
Qed.

Lemma filter_fresh_id uuid (cs : list contact) :
  ~ In uuid (ids cs) ->
  filter (fun x => negb (c_id x =? uuid)%string) cs = cs.
Proof.
  induction cs as [|c r IH]; cbn; [reflexivity|].
  intros Hn. destruct (String.eqb_spec (c_id c) uuid) as [E|E].
  - exfalso. apply Hn. now left.
  - cbn. f_equal. apply IH. intros Hin. apply Hn. now right.
Qed.

End AddFacts.

(** C7.  When the arguments of [add_contact] match a stored record per
    [is_duplicate], the call returns [None] and the store it leaves is
    the store it was given: same record list, same undo log, same files
    on disk. *)
Theorem add_contact_duplicate_noop {ext : Externals}
    (uuid now stamp name phone email category notes : string) (s : store) :
  is_duplicate s name phone email = true ->
  add_contact uuid now stamp name phone email category notes s = (None, s).
Proof.
  intros Hdup. unfold add_contact. now rewrite Hdup.
Qed.

Lemma add_contact_duplicate_noop_witness :
  is_duplicate (ext := Reference.externals) Samples.jane_store
    "jane doe" "+1 415 555 2671" "" = true
  /\ add_contact (ext := Reference.externals) "id-2" "2024-02-01T08:00:00"
       "20240201_080000" "jane doe" "+1 415 555 2671" "" "Other" ""
       Samples.jane_store
     = (None, Samples.jane_store).
Proof.
  split.
  - reflexivity.
  - apply (add_contact_duplicate_noop (ext := Reference.externals)).
    reflexivity.
Defined.

(** ** Updating *)

Lemma update_first_absent contact_id f (cs : list contact) :
  ~ In contact_id (ids cs) -> update_first contact_id f cs = None.
Proof.
  induction cs as [|c r IH]; cbn; [reflexivity|].
  intros Hn. destruct (String.eqb_spec (c_id c) contact_id) as [E|E].
  - exfalso. apply Hn. now left.
  - rewrite IH; [reflexivity|]. intros Hin. apply Hn. now right.
Qed.

(** C6.  [update_contact] with an id that no stored record carries
    returns [False] and leaves the store as it was: no entry is pushed
    on the undo log and no record is changed. *)
Theorem update_contact_absent_id
    (now stamp contact_id name phone email category notes : string)
    (s : store) :
  ~ In contact_id (ids (contacts s)) ->
  update_contact now stamp contact_id name phone email category notes s
  = (false, s).
Proof.
  intros Habs. unfold update_contact.
  now rewrite (update_first_absent _ _ _ Habs).
Qed.

Lemma update_contact_absent_id_witness :
  ~ In "id-nobody" (ids (contacts Samples.two_store))
  /\ update_contact "2024-03-01T12:00:00" "20240301_120000" "id-nobody"
       "New Name" "+14155550000" "" "Work" "" Samples.two_store
     = (false, Samples.two_store).
Proof.
  assert (H : ~ In "id-nobody" (ids (contacts Samples.two_store))).
  { cbn. intros [H|[H|[]]]; discriminate H. }
  split; [exact H|].
  apply (update_contact_absent_id _ _ _ _ _ _ _ _ _ H).
Defined.

(** ** Add then undo *)

(** C5.  After a successful [add_contact] whose new id is not the id of
    a record already stored, an immediate [undo] returns [True] and
    leaves a record list equal to the list before the add. *)
Theorem add_then_undo_restores {ext : Externals}
    (uuid now stamp stamp' name phone email category notes : string)
    (s s' : store) (c : contact) :
  ~ In uuid (ids (contacts s)) ->
  add_contact uuid now stamp name phone email category notes s = (Some c, s') ->
  fst (undo stamp' s') = true
  /\ contacts (snd (undo stamp' s')) = contacts s.
Proof.
  intros Hfresh Hadd.
  destruct (add_contact_success _ _ _ _ _ _ _ _ _ _ _ Hadd)
    as (Hc & _ & Hcs & Hlog).
  unfold undo. rewrite Hlog, deque_pop_append. cbn [fst snd].
  split; [reflexivity|].
  rewrite save_contacts_contacts. cbn [contacts revert].
  rewrite Hcs, filter_app. subst c. cbn [c_id filter].
  rewrite String.eqb_refl. cbn. rewrite app_nil_r.
  now apply filter_fresh_id.
Qed.

Lemma add_then_undo_restores_witness :
  contacts
    (snd (undo "20240201_080100"
            (snd (add_contact (ext := Reference.externals) "id-omar"
                    "2024-02-01T08:00:00" "20240201_080000" "Omar Said"
                    "+442079460958" "" "Family" "cousin" Samples.jane_store))))
  = contacts Samples.jane_store.
Proof.
  refine (proj2 (add_then_undo_restores (ext := Reference.externals)
            "id-omar" "2024-02-01T08:00:00" "20240201_080000"
            "20240201_080100" "Omar Said" "+442079460958" "" "Family" "cousin"
            Samples.jane_store _ _ _ _)).
  - cbn. intros [H|[]]. discriminate H.
  - reflexivity.
Defined.

(** ** Undo of a restore *)

(** [undo] on a log that ends with a restore entry pops the entry, keeps
    the current record list, saves and returns [True]. *)
Lemma undo_restore_entry stamp s q snapshot :
  undo_stack s = q ++ [ActRestore snapshot] ->
  undo stamp s
  = (true, save_contacts stamp (mkStore (filename s) (contacts s) q (files s))).
Proof.
  intros Hlog. unfold undo. rewrite Hlog, deque_pop_snoc. reflexivity.
Qed.

(** C3.  On the store holding Jane, [restore_backup] of a backup that
    holds Omar pushes the restore entry with the snapshot [[jane]];
    the [undo] that follows returns [True], pops that entry and saves,
    but the record list is still the restored one, not the snapshot. *)
Theorem undo_after_restore_keeps_restored_list :
  let s1 := snd (restore_backup "20240301_090000"
                   (BackupList [Samples.omar]) Samples.jane_store) in
  newest s1 = Some (ActRestore [Samples.jane])
  /\ fst (undo "20240301_090100" s1) = true
  /\ contacts (snd (undo "20240301_090100" s1)) = [Samples.omar]
  /\ contacts (snd (undo "20240301_090100" s1)) <> [Samples.jane]
  /\ disk_read (files (snd (undo "20240301_090100" s1))) "contacts.json"
     = Some [Samples.omar].
Proof.
  cbv zeta. repeat split; try reflexivity.
  intros H. discriminate H.
Qed.

(** ** Phone numbers: what is stored and what is compared *)

(** C1.  With the sample packages, the phone ["+1 650 253 0000"] passes
    [validate_inputs] and its E.164 form is ["+16502530000"]; the record
    stored by [add_contact] carries the string as it was passed. *)
Theorem add_contact_stores_raw_phone :
  let r := add_contact (ext := Reference.externals) "id-1"
             "2024-02-01T08:00:00" "20240201_080000"
             "Jane Doe" "+1 650 253 0000" "" "Work" ""
             Reference.empty_store in
  validate_inputs (ext := Reference.externals)
    "Jane Doe" "+1 650 253 0000" "" = (true, "")
  /\ e164 (ext := Reference.externals) "+1 650 253 0000"
     = Some "+16502530000"
  /\ option_map c_phone (fst r) = Some "+1 650 253 0000"
  /\ map c_phone (contacts (snd r)) = ["+1 650 253 0000"].
Proof.
  cbv zeta. repeat split; reflexivity.
Qed.

Section DuplicateFacts.

Context {ext : Externals}.

Lemma is_duplicate_phone_match s name probe email c :
  In c (contacts s) ->
  c_phone c = normalized_phone probe ->
  is_duplicate s name probe email = true.
Proof.
  intros Hin Hph. unfold is_duplicate. apply existsb_exists.
  exists c. split; [exact Hin|]. unfold duplicate_of.
  rewrite Hph, String.eqb_refl. now rewrite orb_true_r.
Qed.

(** With any phone package: once the spaced string is what the store
    holds, a call with another name, no email and another phone string
    is not reported, as long as the package never formats a number to
    the spaced string itself (an E.164 string has no space). *)
Lemma is_duplicate_spaced_record_missed uuid now stamp probe :
  (forall n, format_number_E164 n <> "+1 234 567 8900") ->
  probe <> "+1 234 567 8900" ->
  is_duplicate
    (snd (add_contact uuid now stamp "Al Smith" "+1 234 567 8900" ""
            "Other" "" (mkStore "contacts.json" [] [] [])))
    "Bob Jones" probe "" = false.
Proof.
  intros Hfmt Hprobe.
  assert (Hname : (Py.lower "Al Smith" =? Py.lower "Bob Jones")%string = false)
    by reflexivity.
  unfold add_contact.
  replace (is_duplicate (mkStore "contacts.json" [] [] [])
             "Al Smith" "+1 234 567 8900" "") with false by reflexivity.
  cbn [snd]. unfold is_duplicate. rewrite save_contacts_contacts.
  cbn [contacts app existsb]. unfold duplicate_of.
  cbn [c_name c_phone c_email Py.truthy andb].
  rewrite Hname, !orb_false_r. cbn [orb].
  apply String.eqb_neq. intros H.
  unfold normalized_phone in H.
  destruct (phonenumbers_parse probe) as [n|].
  - now apply (Hfmt n).
  - now apply Hprobe.
Qed.

End DuplicateFacts.

(** C2, as stated, fails: after the add of a record with phone
    ["+1 234 567 8900"], [is_duplicate] with the phone ["12345678900"]
    (and another name, no email) returns [False]; so does the probe
    ["+12345678900"]. *)
Lemma is_duplicate_misses_reformatted_phone :
  let r := add_contact (ext := Reference.externals) "id-1"
             "2024-02-01T08:00:00" "20240201_080000"
             "Al Smith" "+1 234 567 8900" "" "Other" ""
             Reference.empty_store in
  option_map c_phone (fst r) = Some "+1 234 567 8900"
  /\ is_duplicate (ext := Reference.externals)
       (snd r) "Bob Jones" "12345678900" "" = false
  /\ is_duplicate (ext := Reference.externals)
       (snd r) "Bob Jones" "+12345678900" "" = false.
Proof.
  cbv zeta. repeat split; reflexivity.
Qed.

(** C2, amended.  After a successful [add_contact] whose phone argument
    is the E.164 string of a number, [is_duplicate] returns [True] for
    every phone argument that parses to a number with that E.164
    string, whatever the name and the email of the call. *)
Theorem is_duplicate_after_canonical_add {ext : Externals}
    (uuid now stamp name phone email category notes : string)
    (s s' : store) (c : contact)
    (name' probe email' : string) (n : PhoneNumber) :
  add_contact uuid now stamp name phone email category notes s = (Some c, s') ->
  phonenumbers_parse probe = Some n ->
  format_number_E164 n = phone ->
  is_duplicate s' name' probe email' = true.
Proof.
  intros Hadd Hparse Hfmt.
  destruct (add_contact_success _ _ _ _ _ _ _ _ _ _ _ Hadd)
    as (Hc & _ & Hcs & _).
  apply (is_duplicate_phone_match s' name' probe email' c).
  - rewrite Hcs. apply in_or_app. right. now left.
  - unfold normalized_phone. rewrite Hparse, Hfmt. now subst c.
Qed.

Lemma is_duplicate_after_canonical_add_witness :
  is_duplicate (ext := Reference.externals)
    (snd (add_contact (ext := Reference.externals) "id-1"
            "2024-02-01T08:00:00" "20240201_080000" "Al Smith"
            "+12345678900" "" "Other" "" Reference.empty_store))
    "Bob Jones" "+1 234 567 8900" "" = true.
Proof.
  refine (is_duplicate_after_canonical_add (ext := Reference.externals)
            "id-1" "2024-02-01T08:00:00" "20240201_080000" "Al Smith"
            "+12345678900" "" "Other" "" Reference.empty_store _ _
            "Bob Jones" "+1 234 567 8900" "" "12345678900" _ _ _);
    reflexivity.
Defined.

(** ** Search *)









(** ** CSV import *)

Section ImportFacts.

Context {ext : Externals}.

Lemma skip_warnings_cons row rest :
  skip_warnings (row :: rest)
  = (if row_valid row then []
     else [skip_warning (r_name row)
             (snd (validate_inputs (r_name row) (r_phone row)
                     (Py.get_default (r_email row) "")))])
    ++ skip_warnings rest.
Proof.
  unfold skip_warnings. cbn [filter].
  destruct (row_valid row); reflexivity.
Qed.

(** The loop computes the filter: the batch grows by the rows that are
    valid and not duplicates, the message boxes by the invalid rows. *)
Lemma import_loop_filter s uuid4 now rows :
  forall i imported warnings,
    import_loop s uuid4 now i rows imported warnings
    = (imported ++
         map (fun ir => contact_of_row (uuid4 (fst ir)) (now (fst ir)) (snd ir))
           (filter (fun ir => row_valid (snd ir)
                              && negb (row_duplicate s (snd ir)))
                   (numbered i rows)),
       warnings ++ skip_warnings rows).
Proof.
  induction rows as [|row rest IH]; intros i imported warnings.
  - cbn. now rewrite !app_nil_r.
  - cbn [import_loop numbered filter snd]. rewrite skip_warnings_cons.
    pose proof (eq_refl (row_valid row)) as Hv.
    pose proof (eq_refl (row_duplicate s row)) as Hd.
    unfold row_valid in Hv at 2. unfold row_duplicate in Hd at 2.
    destruct (validate_inputs (r_name row) (r_phone row)
                (Py.get_default (r_email row) "")) as [ok msg].
    cbn [fst snd] in Hv |- *. rewrite Hv.
    destruct ok; cbn [negb andb].
    + rewrite Hd.
      destruct (is_duplicate s (r_name row) (r_phone row)
                  (Py.get_default (r_email row) "")); cbn [negb].
      * rewrite IH. reflexivity.
      * rewrite IH. cbn [map fst snd]. now rewrite <- app_assoc.
    + rewrite IH. now rewrite <- app_assoc.
Qed.

Lemma import_from_csv_readable uuid4 now stamp err rows s :
  import_from_csv uuid4 now stamp err (Some rows) s
  = match surviving s uuid4 now rows with
    | [] => (true, skip_warnings rows, s)
    | batch =>
        (true, skip_warnings rows,
         save_contacts stamp
           (mkStore (filename s) (contacts s ++ batch)
              (deque_append (ActImport batch) (undo_stack s)) (files s)))
    end.
Proof.
  unfold import_from_csv. rewrite import_loop_filter. cbn [app].
  fold (surviving s uuid4 now rows).
  destruct (surviving s uuid4 now rows); reflexivity.
Qed.

End ImportFacts.

Lemma in_ids (c : contact) (cs : list contact) : In c cs -> In (c_id c) (ids cs).
Proof. apply in_map. Qed.

Lemma existsb_eqb_in (x : string) (l : list string) :
  existsb (String.eqb x) l = true <-> In x l.
Proof.
  rewrite existsb_exists. split.
  - intros [y [Hy E]]. apply String.eqb_eq in E. now subst y.
  - intros H. exists x. split; [exact H | apply String.eqb_refl].
Qed.

Lemma revert_import_removes batch cs c :
  In c batch -> ~ In c (revert (ActImport batch) cs).
Proof.
  intros Hb Hin. cbn [revert] in Hin. apply filter_In in Hin.
  destruct Hin as [_ Hneg]. apply negb_true_iff in Hneg.
  assert (H : existsb (String.eqb (c_id c)) (map c_id batch) = true).
  { apply existsb_eqb_in. now apply in_ids. }
  congruence.
Qed.

Lemma revert_import_appended batch cs :
  (forall c, In c batch -> ~ In (c_id c) (ids cs)) ->
  revert (ActImport batch) (cs ++ batch) = cs.
Proof.
  intros Hdisj. cbn [revert]. rewrite filter_app.
  assert (H2 : filter (fun x => negb (existsb (String.eqb (c_id x))
                                        (map c_id batch))) batch = []).
  { assert (G : forall l, incl l batch ->
              filter (fun x => negb (existsb (String.eqb (c_id x))
                                       (map c_id batch))) l = []).
    { induction l as [|c r IH]; intros Hi; cbn; [reflexivity|].
      assert (Hc : existsb (String.eqb (c_id c)) (map c_id batch) = true).
      { apply existsb_eqb_in, in_ids, Hi. now left. }
      rewrite Hc. cbn. apply IH. intros x Hx. apply Hi. now right. }
    apply G, incl_refl. }
  rewrite H2, app_nil_r.
  induction cs as [|c r IH]; cbn; [reflexivity|].
  destruct (existsb (String.eqb (c_id c)) (map c_id batch)) eqn:E.
  - exfalso. apply existsb_eqb_in in E. apply in_map_iff in E.
    destruct E as [b [Hid Hb]]. apply (Hdisj b Hb). left. now symmetry.
  - cbn. f_equal. apply IH. intros b Hb Hin. apply (Hdisj b Hb). now right.
Qed.

(** The import of rows whose cells are all strings returns [True]; it
    shows one warning per invalid row and none for a duplicate row; the
    record list grows by exactly the surviving rows, in file order;
    when some row survives they are pushed as one import entry, and
    when none does the log is left alone.  The [undo] that follows the
    import leaves no record of the batch in the list, and gives back
    the list from before the import when no stored record carries an
    id of the batch. *)
Theorem import_from_csv_batch {ext : Externals}
    (uuid4 now : nat -> string) (stamp err : string)
    (rows : list csv_row) (s : store) :
  let batch := surviving s uuid4 now rows in
  let r := import_from_csv uuid4 now stamp err (Some rows) s in
  fst (fst r) = true
  /\ snd (fst r) = skip_warnings rows
  /\ contacts (snd r) = contacts s ++ batch
  /\ undo_stack (snd r)
     = match batch with
       | [] => undo_stack s
       | _ :: _ => deque_append (ActImport batch) (undo_stack s)
       end
  /\ forall stamp',
       (forall c, In c batch -> ~ In c (contacts (snd (undo stamp' (snd r)))))
       /\ (batch <> [] ->
           fst (undo stamp' (snd r)) = true
           /\ ((forall c, In c batch -> ~ In (c_id c) (ids (contacts s))) ->
               contacts (snd (undo stamp' (snd r))) = contacts s)).
Proof.
  cbv zeta. rewrite import_from_csv_readable.
  destruct (surviving s uuid4 now rows) as [|b batch] eqn:E.
  - cbn [fst snd]. rewrite app_nil_r. repeat split; try reflexivity.
    + intros c [].
    + now elim H.
    + now elim H.
  - cbn [fst snd]. repeat split; try reflexivity.
    + intros c Hc. unfold undo.
      rewrite save_contacts_undo_stack. cbn [undo_stack].
      rewrite deque_pop_append. cbn [snd].
      rewrite !save_contacts_contacts. cbn [contacts].
      now apply revert_import_removes.
    + unfold undo. rewrite save_contacts_undo_stack. cbn [undo_stack].
      now rewrite deque_pop_append.
    + intros Hdisj. unfold undo.
      rewrite save_contacts_undo_stack. cbn [undo_stack].
      rewrite deque_pop_append. cbn [snd].
      rewrite !save_contacts_contacts. cbn [contacts].
      now apply revert_import_appended.
Qed.

(** *** The import on the rows of the reader *)

Section ReaderFacts.

Context {ext : Externals}.

Lemma read_and_validate_typed row r :
  typed_row row = Some r ->
  read_and_validate row
  = Ret (r_name r, r_phone r, Py.get_default (r_email r) "",
         validate_inputs (r_name r) (r_phone r)
           (Py.get_default (r_email r) ""))
  /\ d_id row = r_id r /\ d_category row = r_category r
  /\ d_notes row = r_notes r /\ d_last_modified row = r_last_modified r.
Proof.
  unfold typed_row, read_and_validate.
  destruct (d_name row) as [| |n]; try discriminate.
  destruct (d_phone row) as [| |p]; try discriminate.
  destruct (d_email row) as [| |e]; try discriminate;
    intros H; injection H as <-; cbn; repeat split.
Qed.

(** On rows whose cells are all strings the loop over the rows of the
    reader is the loop over the typed rows. *)
Lemma reader_loop_typed s uuid4 now rows :
  forall rows' i imported warnings,
    typed_rows rows = Some rows' ->
    reader_loop s uuid4 now i rows imported warnings
    = (snd (import_loop s uuid4 now i rows' imported warnings),
       Ret (fst (import_loop s uuid4 now i rows' imported warnings))).
Proof.
  induction rows as [|row rest IH]; intros rows' i imported warnings Ht.
  - injection Ht as <-. reflexivity.
  - cbn [typed_rows] in Ht.
    destruct (typed_row row) as [r|] eqn:Hr; [|discriminate].
    destruct (typed_rows rest) as [rs|] eqn:Hrs; [|discriminate].
    injection Ht as <-.
    destruct (read_and_validate_typed row r Hr) as (Hrv & Hid & Hcat & Hno & Hlm).
    cbn [reader_loop import_loop]. rewrite Hrv.
    destruct (validate_inputs (r_name r) (r_phone r)
                (Py.get_default (r_email r) "")) as [ok msg].
    destruct ok; cbn [negb].
    + destruct (is_duplicate s (r_name r) (r_phone r)
                  (Py.get_default (r_email r) "")); cbn [negb].
      * now apply IH.
      * rewrite Hid, Hcat, Hno, Hlm. unfold contact_of_row. now apply IH.
    + now apply IH.
Qed.

Lemma import_from_reader_typed uuid4 now stamp err rows rows' s :
  typed_rows rows = Some rows' ->
  import_from_reader uuid4 now stamp err (Some rows) s
  = (snd (fst (import_from_csv uuid4 now stamp err (Some rows') s)),
     Ret (fst (fst (import_from_csv uuid4 now stamp err (Some rows') s)),
          snd (import_from_csv uuid4 now stamp err (Some rows') s))).
Proof.
  intros Ht. unfold import_from_reader, import_from_csv.
  rewrite (reader_loop_typed s uuid4 now rows rows' 0 [] [] Ht).
  destruct (import_loop s uuid4 now 0 rows' [] []) as [imported warnings].
  cbn [fst snd]. destruct imported; reflexivity.
Qed.

(** Whatever the packages are, a first row that has its name and its
    phone but was cut before the email column ends the import with the
    exception of [None.strip()]. *)
Lemma reader_short_email_raises uuid4 now stamp err s row rest n p :
  d_name row = Text n -> d_phone row = Text p -> d_email row = ShortLine ->
  import_from_reader uuid4 now stamp err (Some (row :: rest)) s
  = ([], Raise none_has_no_strip).
Proof.
  intros Hn Hp He. unfold import_from_reader. cbn [reader_loop].
  unfold read_and_validate. now rewrite Hn, Hp, He.
Qed.

End ReaderFacts.

(** C8, as stated, fails: a readable file whose one line ends before
    the email column makes the import raise [AttributeError], and a
    readable file without a phone column makes it raise [KeyError];
    neither call returns. *)
Lemma import_from_reader_raises_on_missing_cells :
  import_from_reader (ext := Reference.externals) Samples.sample_uuid4
    Samples.sample_now "20240401_120000" ""
    (Some MoreSamples.ragged_rows) Reference.empty_store
  = ([], Raise (AttributeError "'NoneType' object has no attribute 'strip'"))
  /\ import_from_reader (ext := Reference.externals) Samples.sample_uuid4
       Samples.sample_now "20240401_120000" ""
       (Some MoreSamples.no_phone_column_rows) Reference.empty_store
     = ([], Raise (KeyError "phone")).
Proof. split; reflexivity. Qed.

(** C8, amended.  For every CSV file that can be read, whose header has
    the columns [name] and [phone] and none of whose lines is shorter
    than the header (every row has a text in each column that the
    header has), [import_from_csv] returns [True]; it shows one
    warning per invalid row and none for a duplicate row; the record
    list grows by exactly the surviving rows, in file order; when some
    row survives they are pushed as one import entry, and when none
    does the log is left alone.  The [undo] that follows the import
    leaves no record of the batch in the list, and gives back the list
    from before the import when no stored record carries an id of the
    batch. *)
Theorem import_from_reader_batch {ext : Externals}
    (uuid4 now : nat -> string) (stamp err : string)
    (rows : list reader_row) (rows' : list csv_row) (s : store) :
  typed_rows rows = Some rows' ->
  let batch := surviving s uuid4 now rows' in
  exists s',
    import_from_reader uuid4 now stamp err (Some rows) s
    = (skip_warnings rows', Ret (true, s'))
    /\ contacts s' = contacts s ++ batch
    /\ undo_stack s'
       = match batch with
         | [] => undo_stack s
         | _ :: _ => deque_append (ActImport batch) (undo_stack s)
         end
    /\ forall stamp',
         (forall c, In c batch -> ~ In c (contacts (snd (undo stamp' s'))))
         /\ (batch <> [] ->
             fst (undo stamp' s') = true
             /\ ((forall c, In c batch -> ~ In (c_id c) (ids (contacts s))) ->
                 contacts (snd (undo stamp' s')) = contacts s)).
Proof.
  intros Ht. cbv zeta.
  pose proof (import_from_csv_batch uuid4 now stamp err rows' s) as H.
  cbv zeta in H. destruct H as (Hok & Hw & Hcs & Hlog & Hundo).
  exists (snd (import_from_csv uuid4 now stamp err (Some rows') s)).
  rewrite (import_from_reader_typed _ _ _ _ _ _ _ Ht), Hok, Hw.
  repeat split; try assumption; apply Hundo; assumption.
Qed.

Lemma import_from_reader_batch_witness :
  exists s',
    import_from_reader (ext := Reference.externals) Samples.sample_uuid4
      Samples.sample_now "20240401_120000" ""
      (Some MoreSamples.three_reader_rows) Reference.empty_store
    = (["Skipping invalid contact Bad Phone: Invalid phone number format."],
       Ret (true, s'))
    /\ map c_name (contacts s') = ["Ada Byron"; "Carl Gauss"]
    /\ contacts (snd (undo "20240401_120100" s')) = [].
Proof.
  destruct (import_from_reader_batch (ext := Reference.externals)
              Samples.sample_uuid4 Samples.sample_now "20240401_120000" ""
              MoreSamples.three_reader_rows Samples.three_rows
              Reference.empty_store eq_refl)
    as (s' & Himp & Hcs & _ & Hundo).
  exists s'. split; [exact Himp|]. split; [rewrite Hcs; reflexivity|].
  destruct (Hundo "20240401_120100") as [_ Hback].
  apply Hback.
  - vm_compute. discriminate.
  - intros c _ [].
Defined.



(** ** The undo log over sequences of calls *)

Lemma most_recent_short {A : Type} (q : list A) :
  length q <= maxlen -> most_recent q = q.
Proof.
  intros H. unfold most_recent.
  replace (length q - maxlen) with 0 by lia. reflexivity.
Qed.

Lemma most_recent_length {A : Type} (h : list A) :
  length (most_recent h) <= maxlen.
Proof. unfold most_recent. rewrite length_skipn. unfold maxlen. lia. Qed.

Lemma deque_append_most_recent {A : Type} (x : A) (q : list A) :
  length q <= maxlen -> deque_append x q = most_recent (q ++ [x]).
Proof.
  intros Hq. unfold deque_append, most_recent.
  rewrite length_app. cbn [length]. unfold maxlen in *.
  destruct (10 <? length q + 1) eqn:E.
  - apply Nat.ltb_lt in E.
    replace (length q + 1 - 10) with 1 by lia. reflexivity.
  - apply Nat.ltb_ge in E.
    replace (length q + 1 - 10) with 0 by lia. reflexivity.
Qed.

Lemma most_recent_snoc {A : Type} (x : A) (h : list A) :
  most_recent (most_recent h ++ [x]) = most_recent (h ++ [x]).
Proof.
  assert (Hs : most_recent h ++ [x] = skipn (length h - maxlen) (h ++ [x])).
  { unfold most_recent. rewrite skipn_app.
    replace (length h - maxlen - length h) with 0 by lia. reflexivity. }
  rewrite Hs. unfold most_recent.
  rewrite skipn_skipn, length_skipn, length_app. cbn [length].
  f_equal. unfold maxlen. lia.
Qed.

Lemma fold_deque_append {A : Type} (es h : list A) :
  fold_left (fun q e => deque_append e q) es (most_recent h)
  = most_recent (h ++ es).
Proof.
  revert h. induction es as [|e es IH]; intros h; cbn [fold_left].
  - now rewrite app_nil_r.
  - rewrite deque_append_most_recent by apply most_recent_length.
    rewrite most_recent_snoc, IH, <- app_assoc. reflexivity.
Qed.

Lemma most_recent_eleven {A : Type} (q es : list A) :
  length q <= maxlen -> length es = S maxlen ->
  most_recent (q ++ es) = tl es.
Proof.
  intros Hq He. unfold most_recent. rewrite length_app, He.
  replace (length q + S maxlen - maxlen) with (S (length q)) by lia.
  rewrite skipn_app, skipn_all2 by lia.
  replace (S (length q) - length q) with 1 by lia.
  destruct es; reflexivity.
Qed.

Lemma undo_log_length stamp s :
  length (undo_stack (snd (undo stamp s))) = length (undo_stack s) - 1.
Proof.
  unfold undo. destruct (deque_pop (undo_stack s)) as [[rest a]|] eqn:E.
  - apply deque_pop_length in E. cbn [snd].
    rewrite save_contacts_undo_stack. cbn [undo_stack].
    rewrite E, length_app. cbn [length]. lia.
  - cbn [snd]. unfold deque_pop in E.
    destruct (rev (undo_stack s)) eqn:R; [|discriminate E].
    apply (f_equal (@length action)) in R. rewrite length_rev in R.
    rewrite R. reflexivity.
Qed.

Lemma undo_succeeds_iff stamp s :
  fst (undo stamp s) = negb (length (undo_stack s) =? 0).
Proof.
  unfold undo. destruct (deque_pop (undo_stack s)) as [[rest a]|] eqn:E.
  - apply deque_pop_length in E. rewrite E, length_app. cbn [length fst].
    replace (length rest + 1) with (S (length rest)) by lia. reflexivity.
  - unfold deque_pop in E.
    destruct (rev (undo_stack s)) eqn:R; [|discriminate E].
    apply (f_equal (@length action)) in R. rewrite length_rev in R.
    rewrite R. reflexivity.
Qed.

Lemma update_first_find contact_id f cs old new cs' :
  update_first contact_id f cs = Some (old, new, cs') ->
  find_by_id contact_id cs = Some old /\ new = f old.
Proof.
  revert cs'. induction cs as [|c r IH]; intros cs'; cbn; [discriminate|].
  destruct (c_id c =? contact_id)%string.
  - intros H. injection H as <- <- _. now split.
  - destruct (update_first contact_id f r) as [[[o n] r']|]; [|discriminate].
    intros H. injection H as <- <- _. now apply (IH r').
Qed.

Section RunFacts.

Context {ext : Externals}.

Lemma repeated_undo_length stamp k s :
  length (undo_stack (steps (repeat (CmdUndo stamp) k) s))
  = length (undo_stack s) - k.
Proof.
  revert s. induction k as [|k IH]; intros s; cbn [repeat].
  - cbn. lia.
  - unfold steps. cbn [fold_left exec]. fold (steps (repeat (CmdUndo stamp) k)
                                                (snd (undo stamp s))).
    rewrite IH, undo_log_length. lia.
Qed.

(** A mutation that succeeds appends its descriptor to the log. *)
Lemma mutation_logs_descriptor c s :
  is_mutation c = true -> fst (exec c s) = true ->
  exists e, inverse_descriptor c s = Some e
            /\ undo_stack (snd (exec c s)) = deque_append e (undo_stack s).
Proof.
  destruct c; cbn [is_mutation exec inverse_descriptor]; intros Hm Hok;
    try discriminate Hm.
  - unfold add_contact in *.
    destruct (is_duplicate s name phone email); [discriminate Hok|].
    eexists. split; reflexivity.
  - unfold update_contact in *.
    destruct (update_first contact_id _ (contacts s))
      as [[[old new] cs']|] eqn:E; [|discriminate Hok].
    apply update_first_find in E. destruct E as [-> ->].
    eexists. split; reflexivity.
  - unfold delete_contact in *.
    destruct (find_by_id contact_id (contacts s)); [|discriminate Hok].
    eexists. split; reflexivity.
  - rewrite import_from_csv_readable in *.
    destruct (surviving s uuid4 now rows) as [|b batch].
    + cbn in Hok. now rewrite Nat.eqb_refl in Hok.
    + eexists. split; reflexivity.
  - eexists. split; reflexivity.
Qed.

(** No call lets the log grow past [maxlen]. *)
Lemma exec_log_bounded c s :
  length (undo_stack s) <= maxlen ->
  length (undo_stack (snd (exec c s))) <= maxlen.
Proof.
  intros Hb.
  assert (Hpush : forall e : action,
             length (deque_append e (undo_stack s)) <= maxlen).
  { intros e. rewrite deque_append_length by exact Hb. lia. }
  destruct c; cbn [exec].
  - unfold add_contact.
    destruct (is_duplicate s name phone email); [exact Hb | apply Hpush].
  - unfold update_contact.
    destruct (update_first contact_id _ (contacts s)) as [[[old new] cs']|];
      [apply Hpush | exact Hb].
  - unfold delete_contact.
    destruct (find_by_id contact_id (contacts s)); [apply Hpush | exact Hb].
  - rewrite import_from_csv_readable.
    destruct (surviving s uuid4 now rows); [exact Hb | apply Hpush].
  - apply Hpush.
  - rewrite undo_log_length. lia.
Qed.

Lemma steps_log_bounded cmds s :
  length (undo_stack s) <= maxlen ->
  length (undo_stack (steps cmds s)) <= maxlen.
Proof.
  revert s. induction cmds as [|c r IH]; intros s Hb; [exact Hb|].
  unfold steps. cbn [fold_left]. apply IH. now apply exec_log_bounded.
Qed.

Lemma run_log cmds :
  forall s es s',
    run cmds s = Some (es, s') ->
    length es = length cmds
    /\ undo_stack s'
       = fold_left (fun q e => deque_append e q) es (undo_stack s).
Proof.
  induction cmds as [|c r IH]; intros s es s'; cbn [run].
  - intros H. injection H as <- <-. now split.
  - destruct (is_mutation c && fst (exec c s)) eqn:G; [|discriminate].
    apply andb_true_iff in G. destruct G as [Hm Hok].
    destruct (mutation_logs_descriptor c s Hm Hok) as [e [-> Hlog]].
    destruct (run r (snd (exec c s))) as [[es1 s1]|] eqn:R; [|discriminate].
    intros H. injection H as <- <-.
    destruct (IH _ _ _ R) as [Hlen Hfold]. split.
    + cbn [length]. now rewrite Hlen.
    + cbn [fold_left]. now rewrite <- Hlog.
Qed.

End RunFacts.

(** X26.  From a store whose log holds at most ten entries (a new store
    has an empty log), no sequence of calls makes the log longer than
    ten.  After eleven successful mutations the log holds exactly ten
    entries: the descriptors of the second to the eleventh mutation, in
    order; the descriptor of the first is gone.  The next [undo] returns
    [True], pops the entry of the eleventh mutation and runs the branch
    of [undo] for it on the record list; ten undos in a row succeed and
    the one after them returns [False]. *)
Theorem undo_log_bounded {ext : Externals} (s : store) :
  length (undo_stack s) <= maxlen ->
  (forall cmds, length (undo_stack (steps cmds s)) <= maxlen)
  /\ forall cmds es s',
       length cmds = 11 ->
       run cmds s = Some (es, s') ->
       exists oldest middle e,
         es = oldest :: middle ++ [e]
         /\ undo_stack s' = middle ++ [e]
         /\ length (undo_stack s') = 10
         /\ forall stamp,
              undo stamp s'
              = (true, save_contacts stamp
                         (mkStore (filename s') (revert e (contacts s'))
                                  middle (files s')))
              /\ (forall k, k < 10 ->
                    fst (undo stamp (steps (repeat (CmdUndo stamp) k) s'))
                    = true)
              /\ fst (undo stamp (steps (repeat (CmdUndo stamp) 10) s'))
                 = false.
Proof.
  intros Hb. split; [intros cmds; now apply steps_log_bounded|].
  intros cmds es s' Hlen Hrun.
  destruct (run_log _ _ _ _ Hrun) as [Hes Hfold].
  rewrite <- (most_recent_short (undo_stack s) Hb) in Hfold.
  rewrite fold_deque_append in Hfold.
  rewrite most_recent_eleven in Hfold;
    [| exact Hb | rewrite Hes, Hlen; reflexivity].
  destruct es as [|oldest rest]; [rewrite Hlen in Hes; discriminate Hes|].
  cbn [tl] in Hfold.
  assert (Hrest : length rest = 10).
  { cbn [length] in Hes. lia. }
  destruct (exists_last (l := rest)) as [middle [e Hme]].
  { intros ->. discriminate Hrest. }
  exists oldest, middle, e.
  assert (Hten : length (undo_stack s') = 10) by now rewrite Hfold.
  split; [now rewrite Hme|]. split; [now rewrite Hfold|].
  split; [exact Hten|].
  intros stamp. split; [|split].
  - unfold undo. rewrite Hfold, Hme, deque_pop_snoc. reflexivity.
  - intros k Hk. rewrite undo_succeeds_iff, repeated_undo_length, Hten.
    destruct (10 - k) eqn:D; [lia | reflexivity].
  - rewrite undo_succeeds_iff, repeated_undo_length, Hten. reflexivity.
Qed.

Lemma undo_log_bounded_witness :
  match run (ext := Reference.externals) Samples.eleven_adds
          Reference.empty_store with
  | Some (es, s') =>
      length es = 11
      /\ length (undo_stack s') = 10
      /\ undo_stack s' = tl es
      /\ fst (undo "20240501_100000" s') = true
  | None => False
  end.
Proof.
  assert (Hb : length (undo_stack Reference.empty_store) <= maxlen).
  { cbn. unfold maxlen. lia. }
  destruct (run (ext := Reference.externals) Samples.eleven_adds
              Reference.empty_store) as [[es s']|] eqn:R.
  - destruct (undo_log_bounded (ext := Reference.externals)
                Reference.empty_store Hb) as [_ Hrun].
    destruct (Hrun Samples.eleven_adds es s' eq_refl R)
      as (oldest & middle & e & Hes & Hlog & Hlen & Hundo).
    split; [|split; [exact Hlen|split]].
    + rewrite Hes. cbn [length]. rewrite <- Hlog, Hlen. reflexivity.
    + rewrite Hlog, Hes. reflexivity.
    + destruct (Hundo "20240501_100000") as [-> _]. reflexivity.
  - vm_compute in R. discriminate R.
Defined.

(** C4.  Ten adds followed by a restore of a backup that holds Omar are
    eleven successful mutations.  The log then holds ten entries and
    the newest is the restore entry with the ten records that the
    restore replaced.  The next [undo] pops that entry and returns
    [True], but the record list is still the restored one: the most
    recent mutation is not reversed. *)
Theorem undo_after_eleventh_restore_reverses_nothing :
  let before :=
    contacts (steps (ext := Reference.externals)
                (firstn 10 Samples.eleven_adds) Reference.empty_store) in
  match run (ext := Reference.externals) MoreSamples.ten_adds_then_restore
          Reference.empty_store with
  | Some (es, s') =>
      length es = 11
      /\ length before = 10
      /\ length (undo_stack s') = 10
      /\ newest s' = Some (ActRestore before)
      /\ contacts s' = [Samples.omar]
      /\ fst (undo "20240501_100000" s') = true
      /\ length (undo_stack (snd (undo "20240501_100000" s'))) = 9
      /\ contacts (snd (undo "20240501_100000" s')) = [Samples.omar]
      /\ contacts (snd (undo "20240501_100000" s')) <> before
  | None => False
  end.
Proof.
  vm_compute. repeat split. intros H. discriminate H.
Qed.

(** * Further properties of the store *)

(** ** The disk *)

Lemma disk_read_filter_other (d : disk) (p q : string) :
  p <> q ->
  disk_read (filter (fun e => negb (fst e =? p)%string) d) q = disk_read d q.
Proof.
  intros Hpq. induction d as [|[p' v'] r IH]; cbn; [reflexivity|].
  destruct (String.eqb_spec p' p) as [->|Hp]; cbn.
  - destruct (String.eqb_spec p q) as [E|_]; [now elim Hpq | exact IH].
  - destruct (p' =? q)%string; [reflexivity | exact IH].
Qed.

Lemma disk_read_write (d : disk) (p q : string) (v : list contact) :
  disk_read (disk_write d p v) q
  = if (p =? q)%string then Some v else disk_read d q.
Proof.
  unfold disk_write. cbn [disk_read].
  destruct (String.eqb_spec p q) as [E|E]; [reflexivity|].
  now apply disk_read_filter_other.
Qed.

Lemma string_length_append (a b : string) :
  String.length (a ++ b)%string = String.length a + String.length b.
Proof. induction a as [|c a IH]; cbn; [reflexivity | now rewrite IH]. Qed.

Lemma backup_name_fresh (file stamp : string) : backup_name file stamp <> file.
Proof.
  intros H. apply (f_equal String.length) in H. unfold backup_name in H.
  rewrite !string_length_append in H. cbn in H. lia.
Qed.

Lemma save_contacts_synced stamp s : synced (save_contacts stamp s).
Proof.
  unfold synced, save_contacts. cbn [files filename contacts].
  now rewrite disk_read_write, String.eqb_refl.
Qed.

Lemma save_contacts_backup_read stamp s old :
  disk_read (files s) (filename s) = Some old ->
  disk_read (files (save_contacts stamp s)) (backup_name (filename s) stamp)
  = Some old.
Proof.
  intros Hold. unfold save_contacts. cbn [files].
  rewrite Hold, !disk_read_write.
  destruct (String.eqb_spec (filename s) (backup_name (filename s) stamp))
    as [E|_].
  - symmetry in E. now apply backup_name_fresh in E.
  - now rewrite String.eqb_refl.
Qed.

(** X1.  [save_contacts] writes the record list to the store file; when
    the file existed, its previous content is then found under the
    backup name of that save; no other file is touched, and no backup
    is made for a store file that did not exist. *)
Theorem save_contacts_backs_up (stamp : string) (s : store) :
  let s' := save_contacts stamp s in
  disk_read (files s') (filename s) = Some (contacts s)
  /\ (forall old, disk_read (files s) (filename s) = Some old ->
        disk_read (files s') (backup_name (filename s) stamp) = Some old)
  /\ (forall p, p <> filename s -> p <> backup_name (filename s) stamp ->
        disk_read (files s') p = disk_read (files s) p)
  /\ (disk_read (files s) (filename s) = None ->
        forall p, p <> filename s ->
                  disk_read (files s') p = disk_read (files s) p).
Proof.
  cbv zeta. split; [|split; [|split]].
  - apply save_contacts_synced.
  - intros old. apply save_contacts_backup_read.
  - intros p Hp Hb. unfold save_contacts. cbn [files].
    rewrite disk_read_write.
    destruct (String.eqb_spec (filename s) p) as [E|_]; [now elim Hp|].
    destruct (disk_read (files s) (filename s)); [|reflexivity].
    rewrite disk_read_write.
    destruct (String.eqb_spec (backup_name (filename s) stamp) p) as [E|_];
      [now elim Hb | reflexivity].
  - intros Hnone p Hp. unfold save_contacts. cbn [files].
    rewrite Hnone, disk_read_write.
    destruct (String.eqb_spec (filename s) p) as [E|_];
      [now elim Hp | reflexivity].
Qed.

Section SyncFacts.

Context {ext : Externals}.

(** A call either leaves the store as it was and reports no change, or
    it ends with [save_contacts] on a store with the same file name and
    the same disk. *)
Lemma exec_saves_or_skips c s :
  (fst (exec c s) = false /\ snd (exec c s) = s)
  \/ (fst (exec c s) = true
      /\ exists s0, snd (exec c s) = save_contacts (stamp_of c) s0
                    /\ filename s0 = filename s /\ files s0 = files s).
Proof.
  destruct c; cbn [exec stamp_of].
  - unfold add_contact.
    destruct (is_duplicate s name phone email); [now left|].
    right. split; [reflexivity|]. eexists. now split.
  - unfold update_contact.
    destruct (update_first contact_id _ (contacts s)) as [[[old new] cs']|];
      [|now left].
    right. split; [reflexivity|]. eexists. now split.
  - unfold delete_contact.
    destruct (find_by_id contact_id (contacts s)); [|now left].
    right. split; [reflexivity|]. eexists. now split.
  - rewrite import_from_csv_readable.
    destruct (surviving s uuid4 now rows) as [|b batch].
    + left. cbn. now rewrite Nat.eqb_refl.
    + right. cbn [fst snd]. rewrite save_contacts_contacts. cbn [contacts].
      split.
      * rewrite length_app. cbn [length andb negb].
        destruct (Nat.eqb_spec (length (contacts s) + S (length batch))
                    (length (contacts s))) as [E|_]; [lia | reflexivity].
      * eexists. now split.
  - right. split; [reflexivity|]. eexists. now split.
  - unfold undo. destruct (deque_pop (undo_stack s)) as [[rest a]|];
      [|now left].
    right. split; [reflexivity|]. eexists. now split.
Qed.

End SyncFacts.

(** X2.  Every call that reports a change leaves the store file equal
    to the record list in memory; and from a store whose file equals
    its list, every sequence of calls ends in such a store. *)
Theorem store_file_in_sync {ext : Externals} :
  (forall c s, fst (exec c s) = true -> synced (snd (exec c s)))
  /\ (forall cmds s, synced s -> synced (steps cmds s)).
Proof.
  assert (Hone : forall c s, fst (exec c s) = true -> synced (snd (exec c s))).
  { intros c s Hok.
    destruct (exec_saves_or_skips c s) as [[Hf _]|[_ [s0 [-> _]]]];
      [congruence | apply save_contacts_synced]. }
  split; [exact Hone|].
  induction cmds as [|c r IH]; intros s Hs; [exact Hs|].
  unfold steps. cbn [fold_left]. apply IH.
  destruct (exec_saves_or_skips c s) as [[_ ->]|[Hok _]];
    [exact Hs | now apply Hone].
Qed.

Lemma store_file_in_sync_witness :
  synced (steps (ext := Reference.externals)
            [Samples.add_of "a"; CmdDelete "20240501_090100" "id-jane";
             CmdUndo "20240501_090200"; CmdUndo "20240501_090300"]
            Samples.jane_store).
Proof.
  apply (proj2 (store_file_in_sync (ext := Reference.externals))).
  reflexivity.
Defined.

(** X3.  When a call reports a change on a store whose file equals its
    list, the backup written by that call (the store file name followed
    by [.backup_] and the stamp of the call) holds the record list from
    before the call. *)
Theorem backup_holds_previous_list {ext : Externals} (c : command) (s : store) :
  synced s ->
  fst (exec c s) = true ->
  disk_read (files (snd (exec c s))) (backup_name (filename s) (stamp_of c))
  = Some (contacts s).
Proof.
  intros Hs Hok.
  destruct (exec_saves_or_skips c s) as [[Hf _]|[_ [s0 [-> [Hfn Hfiles]]]]];
    [congruence|].
  pose proof (save_contacts_backup_read (stamp_of c) s0 (contacts s)) as Hb.
  rewrite Hfn, Hfiles in Hb. now apply Hb.
Qed.

Lemma backup_holds_previous_list_witness :
  disk_read
    (files (snd (exec (ext := Reference.externals)
                   (CmdDelete "20240501_090100" "id-jane") Samples.jane_store)))
    (backup_name "contacts.json" "20240501_090100")
  = Some [Samples.jane].
Proof.
  apply (backup_holds_previous_list (ext := Reference.externals)
           (CmdDelete "20240501_090100" "id-jane") Samples.jane_store);
    reflexivity.
Defined.

(** ** Validation *)

Lemma rstrip_cons_nonspace c r :
  Py.isspace c = false -> Py.rstrip (String c r) = String c (Py.rstrip r).
Proof.
  intros Hc. cbn [Py.rstrip]. rewrite Hc. now destruct (Py.rstrip r).
Qed.

Lemma rstrip_idempotent s : Py.rstrip (Py.rstrip s) = Py.rstrip s.
Proof.
  induction s as [|c r IH]; [reflexivity|].
  cbn [Py.rstrip]. destruct (Py.rstrip r) as [|d t] eqn:E.
  - destruct (Py.isspace c) eqn:Hc; [reflexivity|].
    cbn [Py.rstrip]. now rewrite Hc.
  - cbn [Py.rstrip]. cbn [Py.rstrip] in IH. rewrite IH. reflexivity.
Qed.

Lemma lstrip_head s :
  Py.lstrip s = EmptyString
  \/ exists c r, Py.lstrip s = String c r /\ Py.isspace c = false.
Proof.
  induction s as [|c r IH]; [now left|].
  cbn [Py.lstrip]. destruct (Py.isspace c) eqn:Hc; [exact IH|].
  right. now exists c, r.
Qed.

Lemma strip_idempotent s : Py.strip (Py.strip s) = Py.strip s.
Proof.
  unfold Py.strip.
  destruct (lstrip_head s) as [->|[c [r [-> Hc]]]]; [reflexivity|].
  rewrite (rstrip_cons_nonspace _ _ Hc). cbn [Py.lstrip]. rewrite Hc.
  rewrite <- (rstrip_cons_nonspace _ _ Hc). apply rstrip_idempotent.
Qed.

Lemma name_pattern_truthy name : name_pattern name = true -> Py.truthy name = true.
Proof. destruct name; [discriminate | reflexivity]. Qed.

(** X4.  [validate_inputs] accepts, with an empty message, exactly when
    the stripped name has 1 to 100 characters that are all letters or
    white space, the stripped phone parses to a number that is valid,
    and the stripped email is empty or passes the address check. *)
Theorem validate_inputs_accepts_iff {ext : Externals}
    (name phone email : string) :
  validate_inputs name phone email = (true, "")
  <-> name_pattern (Py.strip name) = true
      /\ (exists n, phonenumbers_parse (Py.strip phone) = Some n
                    /\ is_valid_number n = true)
      /\ (Py.strip email = "" \/ validate_email (Py.strip email) = None).
Proof.
  unfold validate_inputs. split.
  - destruct (Py.truthy (Py.strip name)) eqn:Ht; cbn [negb];
      [|discriminate].
    destruct (name_pattern (Py.strip name)) eqn:Hn; cbn [negb];
      [|discriminate].
    destruct (phonenumbers_parse (Py.strip phone)) as [n|] eqn:Hp;
      [|discriminate].
    destruct (is_valid_number n) eqn:Hv; cbn [negb]; [|discriminate].
    intros H. split; [reflexivity|]. split; [now exists n|].
    destruct (Py.strip email) as [|a e] eqn:He; [now left|].
    cbn [Py.truthy] in H. right.
    destruct (validate_email (String a e)); [discriminate H | reflexivity].
  - intros (Hn & [n [Hp Hv]] & He).
    rewrite (name_pattern_truthy _ Hn), Hn, Hp, Hv. cbn [negb].
    destruct He as [->| ->]; [reflexivity|].
    now destruct (Py.truthy (Py.strip email)).
Qed.

(** X5.  White space around the three inputs does not change the
    verdict of [validate_inputs] nor its message. *)
Theorem validate_inputs_ignores_padding {ext : Externals}
    (name phone email : string) :
  validate_inputs (Py.strip name) (Py.strip phone) (Py.strip email)
  = validate_inputs name phone email.
Proof.
  unfold validate_inputs. now rewrite !strip_idempotent.
Qed.

(** A rejected input always comes with a message, and the first rule
    that fails decides it: a bad name is reported before the phone is
    looked at. *)
Lemma validate_inputs_name_first {ext : Externals} (name phone email : string) :
  name_pattern (Py.strip name) = false ->
  validate_inputs name phone email = (false, "Name is required.")
  \/ validate_inputs name phone email
     = (false, "Name can only contain letters and spaces (max 100 characters).").
Proof.
  intros Hn. unfold validate_inputs.
  destruct (Py.truthy (Py.strip name)); cbn [negb]; [|now left].
  rewrite Hn. now right.
Qed.

(** ** Records located by id *)

Lemma contact_eqb_refl c : contact_eqb c c = true.
Proof. unfold contact_eqb. now rewrite !String.eqb_refl. Qed.

Lemma contact_eqb_id a b : contact_eqb a b = true -> c_id a = c_id b.
Proof.
  unfold contact_eqb. rewrite !andb_true_iff.
  intros H. now apply String.eqb_eq.
Qed.

Lemma first_with_id_split contact_id (cs : list contact) :
  In contact_id (ids cs) ->
  exists pre c post,
    cs = pre ++ c :: post /\ c_id c = contact_id /\ ~ In contact_id (ids pre).
Proof.
  induction cs as [|x r IH]; cbn; [intros []|].
  intros Hin. destruct (String.eqb_spec (c_id x) contact_id) as [E|E].
  - exists [], x, r. repeat split; [exact E | intros []].
  - destruct Hin as [H|H]; [now elim E|].
    destruct (IH H) as (pre & c & post & -> & Hc & Hpre).
    exists (x :: pre), c, post. repeat split; [exact Hc|].
    cbn. intros [H1|H1]; [now elim E | now elim Hpre].
Qed.

Lemma update_first_split contact_id f pre c post :
  c_id c = contact_id -> ~ In contact_id (ids pre) ->
  update_first contact_id f (pre ++ c :: post)
  = Some (c, f c, pre ++ f c :: post).
Proof.
  intros Hc. induction pre as [|x r IH]; cbn; intros Hpre.
  - rewrite Hc, String.eqb_refl. reflexivity.
  - destruct (String.eqb_spec (c_id x) contact_id) as [E|E].
    + exfalso. apply Hpre. now left.
    + rewrite IH; [reflexivity|]. intros H. apply Hpre. now right.
Qed.

Lemma find_by_id_split contact_id pre c post :
  c_id c = contact_id -> ~ In contact_id (ids pre) ->
  find_by_id contact_id (pre ++ c :: post) = Some c.
Proof.
  intros Hc. induction pre as [|x r IH]; cbn; intros Hpre.
  - now rewrite Hc, String.eqb_refl.
  - destruct (String.eqb_spec (c_id x) contact_id) as [E|E].
    + exfalso. apply Hpre. now left.
    + apply IH. intros H. apply Hpre. now right.
Qed.

Lemma find_by_id_absent contact_id (cs : list contact) :
  ~ In contact_id (ids cs) -> find_by_id contact_id cs = None.
Proof.
  induction cs as [|x r IH]; cbn; [reflexivity|]. intros Hn.
  destruct (String.eqb_spec (c_id x) contact_id) as [E|E].
  - exfalso. apply Hn. now left.
  - apply IH. intros H. apply Hn. now right.
Qed.

Lemma list_remove_split pre c post :
  ~ In (c_id c) (ids pre) -> list_remove c (pre ++ c :: post) = pre ++ post.
Proof.
  induction pre as [|x r IH]; cbn; intros Hpre.
  - now rewrite contact_eqb_refl.
  - destruct (contact_eqb x c) eqn:E.
    + exfalso. apply Hpre. left. now apply contact_eqb_id.
    + f_equal. apply IH. intros H. apply Hpre. now right.
Qed.

Lemma map_other_ids (f : contact -> contact) contact_id (cs : list contact) :
  ~ In contact_id (ids cs) ->
  map (fun x => if (c_id x =? contact_id)%string then f x else x) cs = cs.
Proof.
  induction cs as [|x r IH]; cbn; [reflexivity|]. intros Hn.
  destruct (String.eqb_spec (c_id x) contact_id) as [E|E].
  - exfalso. apply Hn. now left.
  - f_equal. apply IH. intros H. apply Hn. now right.
Qed.

Lemma update_contact_split now stamp contact_id name phone email category notes
    s pre c post :
  contacts s = pre ++ c :: post ->
  c_id c = contact_id -> ~ In contact_id (ids pre) ->
  update_contact now stamp contact_id name phone email category notes s
  = (true,
     save_contacts stamp
       (mkStore (filename s)
          (pre ++ mkContact contact_id name phone email category notes now
               :: post)
          (deque_append
             (ActUpdate c
                (mkContact contact_id name phone email category notes now))
             (undo_stack s))
          (files s))).
Proof.
  intros Hcs Hc Hpre. unfold update_contact.
  rewrite Hcs, (update_first_split _ _ _ _ _ Hc Hpre), Hc. reflexivity.
Qed.

Lemma delete_contact_split stamp contact_id s pre c post :
  contacts s = pre ++ c :: post ->
  c_id c = contact_id -> ~ In contact_id (ids pre) ->
  delete_contact stamp contact_id s
  = (true,
     save_contacts stamp
       (mkStore (filename s) (pre ++ post)
          (deque_append (ActDelete c) (undo_stack s)) (files s))).
Proof.
  intros Hcs Hc Hpre. unfold delete_contact.
  rewrite Hcs, (find_by_id_split _ _ _ _ Hc Hpre), list_remove_split;
    [reflexivity | now rewrite Hc].
Qed.

(** ** Update *)

(** X6.  [update_contact] with an id that some record carries returns
    [True]; the list keeps its length and its ids, in order; every
    record with another id stays in the list; the new list holds the
    record made of that id, the five new values and the new timestamp;
    and whatever the new list holds is that record or was there
    before. *)
Theorem update_contact_present
    (now stamp contact_id name phone email category notes : string)
    (s : store) :
  In contact_id (ids (contacts s)) ->
  let r := update_contact now stamp contact_id name phone email category
             notes s in
  let after := mkContact contact_id name phone email category notes now in
  fst r = true
  /\ ids (contacts (snd r)) = ids (contacts s)
  /\ length (contacts (snd r)) = length (contacts s)
  /\ In after (contacts (snd r))
  /\ (forall x, In x (contacts s) -> c_id x <> contact_id ->
                In x (contacts (snd r)))
  /\ (forall x, In x (contacts (snd r)) -> x = after \/ In x (contacts s)).
Proof.
  intros Hin. cbv zeta.
  destruct (first_with_id_split _ _ Hin) as (pre & c & post & Hcs & Hc & Hpre).
  rewrite (update_contact_split _ _ _ _ _ _ _ _ _ _ _ _ Hcs Hc Hpre).
  cbn [fst snd]. rewrite save_contacts_contacts. cbn [contacts].
  rewrite Hcs. unfold ids. rewrite !map_app, !length_app. cbn [map length c_id].
  rewrite Hc. repeat split.
  - apply in_or_app. right. now left.
  - intros x Hx Hid. apply in_app_or in Hx. apply in_or_app.
    destruct Hx as [Hx|[Hx|Hx]]; [now left | | right; now right].
    subst x. now elim Hid.
  - intros x Hx. apply in_app_or in Hx.
    destruct Hx as [Hx|[Hx|Hx]].
    + right. apply in_or_app. now left.
    + left. now symmetry.
    + right. apply in_or_app. right. now right.
Qed.

Lemma update_contact_present_witness :
  ids (contacts (snd (update_contact "2024-06-01T10:00:00" "20240601_100000"
                        "id-omar" "Omar S" "+442079460000" "o@example.com"
                        "Work" "" Samples.two_store)))
  = ["id-jane"; "id-omar"].
Proof.
  pose proof (update_contact_present "2024-06-01T10:00:00" "20240601_100000"
                "id-omar" "Omar S" "+442079460000" "o@example.com"
                "Work" "" Samples.two_store) as H.
  cbv zeta in H. destruct H as (_ & Hids & _).
  - cbn. tauto.
  - rewrite Hids. reflexivity.
Defined.

(** X7.  After a successful [update_contact], [undo] returns [True] and
    writes the snapshot taken before the update over every record that
    carries the id; when the ids of the store are pairwise different
    the list is again the list from before the update. *)
Theorem update_then_undo
    (now stamp stamp' contact_id name phone email category notes : string)
    (s : store) :
  In contact_id (ids (contacts s)) ->
  let s' := snd (update_contact now stamp contact_id name phone email
                   category notes s) in
  exists before,
    find_by_id contact_id (contacts s) = Some before
    /\ fst (undo stamp' s') = true
    /\ contacts (snd (undo stamp' s'))
       = map (fun x => if (c_id x =? contact_id)%string then before else x)
             (contacts s)
    /\ (NoDup (ids (contacts s)) ->
        contacts (snd (undo stamp' s')) = contacts s).
Proof.
  intros Hin. cbv zeta.
  destruct (first_with_id_split _ _ Hin) as (pre & c & post & Hcs & Hc & Hpre).
  rewrite (update_contact_split _ _ _ _ _ _ _ _ _ _ _ _ Hcs Hc Hpre).
  cbn [snd]. exists c.
  assert (Hundo : forall st, contacts (snd (undo stamp' (save_contacts stamp st)))
                  = match deque_pop (undo_stack st) with
                    | Some (_, a) => revert a (contacts st)
                    | None => contacts st
                    end).
  { intros st. unfold undo. rewrite save_contacts_undo_stack.
    destruct (deque_pop (undo_stack st)) as [[rest a]|]; reflexivity. }
  assert (Hmap : map (fun x => if (c_id x =? contact_id)%string then c else x)
                     (pre ++ mkContact contact_id name phone email category
                                 notes now :: post)
                 = map (fun x => if (c_id x =? contact_id)%string then c else x)
                       (contacts s)).
  { rewrite Hcs, !map_app. cbn [map c_id].
    now rewrite Hc, String.eqb_refl. }
  split; [rewrite Hcs; now apply find_by_id_split|].
  split; [|split].
  - unfold undo. rewrite save_contacts_undo_stack. cbn [undo_stack].
    now rewrite deque_pop_append.
  - rewrite Hundo. cbn [undo_stack contacts].
    rewrite deque_pop_append. cbn [revert c_id]. exact Hmap.
  - intros Hnd. rewrite Hundo. cbn [undo_stack contacts].
    rewrite deque_pop_append. cbn [revert c_id]. rewrite Hmap, Hcs.
    rewrite Hcs in Hnd. unfold ids in Hnd. rewrite map_app in Hnd.
    cbn [map] in Hnd. apply NoDup_remove_2 in Hnd. rewrite Hc in Hnd.
    rewrite map_app. cbn [map]. rewrite Hc, String.eqb_refl.
    rewrite (map_other_ids (fun _ => c) contact_id pre Hpre).
    rewrite (map_other_ids (fun _ => c) contact_id post); [reflexivity|].
    intros H. apply Hnd. apply in_or_app. now right.
Qed.

Lemma update_then_undo_witness :
  contacts
    (snd (undo "20240601_100100"
            (snd (update_contact "2024-06-01T10:00:00" "20240601_100000"
                    "id-omar" "Omar S" "+442079460000" "o@example.com"
                    "Work" "" Samples.two_store))))
  = contacts Samples.two_store.
Proof.
  destruct (update_then_undo "2024-06-01T10:00:00" "20240601_100000"
              "20240601_100100" "id-omar" "Omar S" "+442079460000"
              "o@example.com" "Work" "" Samples.two_store)
    as (before & _ & _ & _ & Hnd).
  - cbn. tauto.
  - apply Hnd. cbn. repeat constructor; cbn; intuition discriminate.
Defined.

(** ** Delete *)

(** X8.  [delete_contact] returns [False] and changes nothing when no
    record carries the id.  Otherwise it returns [True], removes the
    first record with that id and no other (the rest keeps its order),
    and pushes the removed record as a delete entry. *)
Theorem delete_contact_cases (stamp contact_id : string) (s : store) :
  (~ In contact_id (ids (contacts s)) ->
   delete_contact stamp contact_id s = (false, s))
  /\ (In contact_id (ids (contacts s)) ->
      exists pre c post,
        contacts s = pre ++ c :: post
        /\ c_id c = contact_id
        /\ ~ In contact_id (ids pre)
        /\ fst (delete_contact stamp contact_id s) = true
        /\ contacts (snd (delete_contact stamp contact_id s)) = pre ++ post
        /\ undo_stack (snd (delete_contact stamp contact_id s))
           = deque_append (ActDelete c) (undo_stack s)).
Proof.
  split.
  - intros Habs. unfold delete_contact.
    now rewrite (find_by_id_absent _ _ Habs).
  - intros Hin.
    destruct (first_with_id_split _ _ Hin) as (pre & c & post & Hcs & Hc & Hpre).
    exists pre, c, post.
    rewrite (delete_contact_split _ _ _ _ _ _ Hcs Hc Hpre).
    repeat split; assumption.
Qed.

(** X9.  After a successful [delete_contact], [undo] returns [True] and
    puts the removed record back at the end of the list, not at its
    old place: the list holds the same records as before the delete,
    and it is the same list when the removed record was the last. *)
Theorem delete_then_undo (stamp stamp' contact_id : string) (s : store) :
  In contact_id (ids (contacts s)) ->
  let s' := snd (delete_contact stamp contact_id s) in
  exists pre c post,
    contacts s = pre ++ c :: post
    /\ c_id c = contact_id
    /\ fst (undo stamp' s') = true
    /\ contacts (snd (undo stamp' s')) = pre ++ post ++ [c]
    /\ Permutation (contacts s) (contacts (snd (undo stamp' s')))
    /\ (post = [] -> contacts (snd (undo stamp' s')) = contacts s).
Proof.
  intros Hin. cbv zeta.
  destruct (first_with_id_split _ _ Hin) as (pre & c & post & Hcs & Hc & Hpre).
  exists pre, c, post.
  rewrite (delete_contact_split _ _ _ _ _ _ Hcs Hc Hpre). cbn [snd].
  unfold undo. rewrite save_contacts_undo_stack. cbn [undo_stack].
  rewrite deque_pop_append. cbn [fst snd].
  rewrite !save_contacts_contacts. cbn [contacts revert].
  rewrite <- app_assoc.
  split; [exact Hcs|]. split; [exact Hc|]. split; [reflexivity|].
  split; [reflexivity|]. split.
  - rewrite Hcs. apply Permutation_app_head. apply Permutation_cons_append.
  - intros ->. rewrite Hcs. reflexivity.
Qed.

Lemma delete_then_undo_witness :
  exists pre c post,
    contacts Samples.two_store = pre ++ c :: post
    /\ c_id c = "id-jane"
    /\ contacts
         (snd (undo "20240601_110100"
                 (snd (delete_contact "20240601_110000" "id-jane"
                         Samples.two_store))))
       = pre ++ post ++ [c].
Proof.
  destruct (delete_then_undo "20240601_110000" "20240601_110100" "id-jane"
              Samples.two_store) as (pre & c & post & H1 & H2 & _ & H4 & _).
  - cbn. tauto.
  - exists pre, c, post. now repeat split.
Defined.

(** ** Adding twice *)

(** X10.  After a successful [add_contact], a second [add_contact] is
    refused ([None], store unchanged) when its name equals the first
    name up to letter case, or its phone normalizes to the stored phone
    string, or its email is not empty and equals the first email up to
    letter case. *)
Theorem add_contact_twice_refused {ext : Externals}
    (uuid now stamp name phone email category notes : string)
    (uuid' now' stamp' name' phone' email' category' notes' : string)
    (s s' : store) (c : contact) :
  add_contact uuid now stamp name phone email category notes s = (Some c, s') ->
  Py.lower name' = Py.lower name
  \/ normalized_phone phone' = phone
  \/ (email' <> "" /\ Py.lower email' = Py.lower email) ->
  add_contact uuid' now' stamp' name' phone' email' category' notes' s'
  = (None, s').
Proof.
  intros Hadd Hsame.
  destruct (add_contact_success _ _ _ _ _ _ _ _ _ _ _ Hadd)
    as (Hc & _ & Hcs & _).
  assert (Hdup : is_duplicate s' name' phone' email' = true).
  { unfold is_duplicate. apply existsb_exists. exists c. split.
    - rewrite Hcs. apply in_or_app. right. now left.
    - subst c. unfold duplicate_of. cbn [c_name c_phone c_email].
      destruct Hsame as [H|[H|[Hne H]]].
      + now rewrite H, String.eqb_refl.
      + rewrite H, String.eqb_refl. now rewrite orb_true_r.
      + rewrite H, String.eqb_refl.
        destruct email'; [now elim Hne|]. cbn. now rewrite orb_true_r. }
  unfold add_contact. now rewrite Hdup.
Qed.

Lemma add_contact_twice_refused_witness :
  add_contact (ext := Reference.externals) "id-2" "2024-02-01T09:00:00"
    "20240201_090000" "JANE DOE" "+442079460958" "" "Other" ""
    (snd (add_contact (ext := Reference.externals) "id-1"
            "2024-02-01T08:00:00" "20240201_080000" "Jane Doe"
            "+14155552671" "" "Work" "" Reference.empty_store))
  = (None,
     snd (add_contact (ext := Reference.externals) "id-1"
            "2024-02-01T08:00:00" "20240201_080000" "Jane Doe"
            "+14155552671" "" "Work" "" Reference.empty_store)).
Proof.
  refine (add_contact_twice_refused (ext := Reference.externals)
            "id-1" "2024-02-01T08:00:00" "20240201_080000" "Jane Doe"
            "+14155552671" "" "Work" ""
            "id-2" "2024-02-01T09:00:00" "20240201_090000" "JANE DOE"
            "+442079460958" "" "Other" "" Reference.empty_store _ _ _ _).
  - reflexivity.
  - left. reflexivity.
Defined.

(** ** Search over all fields, and the filtered view *)











(** ** Import, export and load *)

(** X14.  When a surviving row of an import carries the id of a record
    that was already stored, the [undo] of that import removes the
    stored record too: it is not in the list afterwards. *)
Theorem import_undo_drops_record_with_batch_id {ext : Externals}
    (uuid4 now : nat -> string) (stamp stamp' err : string)
    (rows : list csv_row) (s : store) (c : contact) :
  In c (contacts s) ->
  In (c_id c) (ids (surviving s uuid4 now rows)) ->
  let s' := snd (import_from_csv uuid4 now stamp err (Some rows) s) in
  In c (contacts s')
  /\ fst (undo stamp' s') = true
  /\ ~ In c (contacts (snd (undo stamp' s'))).
Proof.
  intros Hc Hid. cbv zeta. rewrite import_from_csv_readable.
  destruct (surviving s uuid4 now rows) as [|b batch] eqn:E; [now elim Hid|].
  cbn [snd]. unfold undo. rewrite save_contacts_undo_stack. cbn [undo_stack].
  rewrite deque_pop_append. cbn [fst snd].
  rewrite !save_contacts_contacts. cbn [contacts].
  split; [apply in_or_app; now left|]. split; [reflexivity|].
  cbn [revert]. intros Hin. apply filter_In in Hin.
  destruct Hin as [_ Hneg]. apply negb_true_iff in Hneg.
  apply existsb_eqb_in in Hid. unfold ids in Hid. congruence.
Qed.

Lemma import_undo_drops_record_with_batch_id_witness :
  contacts
    (snd (undo "20240701_100100"
            (snd (import_from_csv (ext := Reference.externals)
                    Samples.sample_uuid4 Samples.sample_now
                    "20240701_100000" "" (Some MoreSamples.clash_rows)
                    Samples.jane_store))))
  = [].
Proof.
  pose proof (import_undo_drops_record_with_batch_id
                (ext := Reference.externals)
                Samples.sample_uuid4 Samples.sample_now
                "20240701_100000" "20240701_100100" ""
                MoreSamples.clash_rows Samples.jane_store Samples.jane) as H.
  cbv zeta in H. destruct H as (_ & _ & Hgone).
  - cbn. tauto.
  - vm_compute. tauto.
  - reflexivity.
Defined.

Lemma filter_all_true_on {A : Type} (f : A -> bool) (l : list A) :
  (forall x, In x l -> f x = true) -> filter f l = l.
Proof.
  induction l as [|x r IH]; cbn; intros H; [reflexivity|].
  rewrite (H x) by now left. f_equal. apply IH. intros y Hy. apply H. now right.
Qed.

Section ExportFacts.

Context {ext : Externals}.

Lemma contact_of_row_of_contact uuid now c :
  contact_of_row uuid now (row_of_contact c) = c.
Proof. now destruct c. Qed.

Lemma row_valid_exported c : row_valid (row_of_contact c) = contact_valid c.
Proof. reflexivity. Qed.

Lemma row_duplicate_exported s c :
  In c (contacts s) -> row_duplicate s (row_of_contact c) = true.
Proof.
  intros Hin. unfold row_duplicate, is_duplicate. apply existsb_exists.
  exists c. split; [exact Hin|]. unfold duplicate_of.
  cbn [row_of_contact r_name]. now rewrite String.eqb_refl.
Qed.

Lemma surviving_exported_same_store s cs i :
  incl cs (contacts s) ->
  filter (fun ir => row_valid (snd ir) && negb (row_duplicate s (snd ir)))
         (numbered i (map row_of_contact cs)) = [].
Proof.
  revert i. induction cs as [|c r IH]; intros i Hi; cbn; [reflexivity|].
  rewrite row_duplicate_exported by (apply Hi; now left).
  rewrite andb_false_r. apply IH. intros x Hx. apply Hi. now right.
Qed.

Lemma surviving_exported_empty_store s (uuid4 now : nat -> string) cs i :
  contacts s = [] ->
  map (fun ir => contact_of_row (uuid4 (fst ir)) (now (fst ir)) (snd ir))
      (filter (fun ir => row_valid (snd ir) && negb (row_duplicate s (snd ir)))
              (numbered i (map row_of_contact cs)))
  = filter contact_valid cs.
Proof.
  intros Hs. revert i. induction cs as [|c r IH]; intros i; cbn [map numbered filter];
    [reflexivity|].
  cbn [snd]. rewrite row_valid_exported.
  assert (Hd : row_duplicate s (row_of_contact c) = false).
  { unfold row_duplicate, is_duplicate. now rewrite Hs. }
  rewrite Hd. cbn [negb]. rewrite andb_true_r.
  destruct (contact_valid c); cbn [map fst snd].
  - now rewrite contact_of_row_of_contact, IH.
  - apply IH.
Qed.

End ExportFacts.

(** X15.  Importing, into the store they were exported from, the rows
    that [export_to_csv] wrote adds nothing: the call returns [True]
    and the store is left as it was, because every row matches the
    record it came from. *)
Theorem import_own_export_adds_nothing {ext : Externals}
    (uuid4 now : nat -> string) (stamp err : string) (s : store)
    (rows : list csv_row) :
  export_to_csv None s = (true, [], Some rows) ->
  fst (fst (import_from_csv uuid4 now stamp err (Some rows) s)) = true
  /\ snd (import_from_csv uuid4 now stamp err (Some rows) s) = s.
Proof.
  unfold export_to_csv. intros H. injection H as <-.
  rewrite import_from_csv_readable. unfold surviving.
  rewrite (surviving_exported_same_store s (contacts s) 0)
    by apply incl_refl.
  now split.
Qed.

Lemma import_own_export_adds_nothing_witness :
  snd (import_from_csv (ext := Reference.externals) Samples.sample_uuid4
         Samples.sample_now "20240701_100000" ""
         (Some (map row_of_contact (contacts Samples.two_store)))
         Samples.two_store)
  = Samples.two_store.
Proof.
  apply (import_own_export_adds_nothing (ext := Reference.externals)).
  reflexivity.
Defined.

(** X16.  Importing the rows that [export_to_csv] wrote into a store
    with no records gives that store the exported records that pass
    [validate_inputs], with their ids, categories, notes and
    timestamps, in the same order; when all exported records pass, the
    list is the exported list. *)
Theorem export_then_import_into_empty {ext : Externals}
    (uuid4 now : nat -> string) (stamp err : string) (s target : store)
    (rows : list csv_row) :
  export_to_csv None s = (true, [], Some rows) ->
  contacts target = [] ->
  contacts (snd (import_from_csv uuid4 now stamp err (Some rows) target))
  = filter contact_valid (contacts s)
  /\ ((forall c, In c (contacts s) -> contact_valid c = true) ->
      contacts (snd (import_from_csv uuid4 now stamp err (Some rows) target))
      = contacts s).
Proof.
  unfold export_to_csv. intros H Ht. injection H as <-.
  assert (Hmain :
    contacts (snd (import_from_csv uuid4 now stamp err
                     (Some (map row_of_contact (contacts s))) target))
    = filter contact_valid (contacts s)).
  { rewrite import_from_csv_readable. unfold surviving.
    rewrite (surviving_exported_empty_store target uuid4 now (contacts s) 0 Ht).
    destruct (filter contact_valid (contacts s)) as [|b l]; cbn [snd].
    - exact Ht.
    - rewrite save_contacts_contacts. cbn [contacts]. now rewrite Ht. }
  split; [exact Hmain|].
  intros Hall. rewrite Hmain. apply filter_all_true_on. exact Hall.
Qed.

Lemma export_then_import_into_empty_witness :
  contacts
    (snd (import_from_csv (ext := Reference.externals) Samples.sample_uuid4
            Samples.sample_now "20240701_100000" ""
            (Some (map row_of_contact (contacts Samples.two_store)))
            Reference.empty_store))
  = contacts Samples.two_store.
Proof.
  apply (export_then_import_into_empty (ext := Reference.externals)
           Samples.sample_uuid4 Samples.sample_now "20240701_100000" ""
           Samples.two_store Reference.empty_store).
  - reflexivity.
  - reflexivity.
  - intros c Hc. cbn in Hc. destruct Hc as [<-|[<-|[]]]; reflexivity.
Defined.

Lemma load_loop_saved uuid4 now (cs : list contact) :
  forall i, load_loop uuid4 now i (map json_of_contact cs) = cs.
Proof.
  induction cs as [|c r IH]; intros i; cbn [map load_loop]; [reflexivity|].
  rewrite IH. now destruct c.
Qed.

Lemma load_loop_nth uuid4 now (records : list json_record) :
  forall i k rec,
    nth_error records k = Some rec ->
    nth_error (load_loop uuid4 now i records) k
    = Some (backfill (uuid4 (i + k)) (now (i + k)) rec).
Proof.
  induction records as [|r rest IH]; intros i k rec Hk.
  - destruct k; discriminate Hk.
  - destruct k as [|k]; cbn [nth_error load_loop] in *.
    + injection Hk as ->. now rewrite Nat.add_0_r.
    + rewrite (IH (S i) k rec Hk). now replace (S i + k) with (i + S k) by lia.
Qed.

Lemma load_loop_length uuid4 now (records : list json_record) :
  forall i, length (load_loop uuid4 now i records) = length records.
Proof.
  induction records as [|r rest IH]; intros i; cbn; [reflexivity|].
  now rewrite IH.
Qed.

(** X17.  [load_contacts] on the file that [save_contacts] wrote returns
    the saved record list, shows no warning and assigns that list to
    the store.  A manager created on that file starts with the saved
    records and an empty undo log, so its first [undo] returns
    [False]: the undo history does not outlive the manager. *)
Theorem save_then_load_round_trip
    (uuid4 now : nat -> string) (stamp stamp' : string) (s st : store) :
  let saved := files (save_contacts stamp s) in
  let file := json_of_disk saved (filename s) in
  load_contacts uuid4 now file st
  = (contacts s, [],
     mkStore (filename st) (contacts s) (undo_stack st) (files st))
  /\ init (filename s) saved uuid4 now file
     = ([], mkStore (filename s) (contacts s) [] saved)
  /\ fst (undo stamp' (snd (init (filename s) saved uuid4 now file))) = false.
Proof.
  cbv zeta. unfold json_of_disk.
  pose proof (save_contacts_synced stamp s) as Hs. unfold synced in Hs.
  cbn [filename contacts save_contacts] in Hs.
  change (filename (save_contacts stamp s)) with (filename s) in *.
  rewrite Hs. unfold init, load_contacts. rewrite load_loop_saved.
  repeat split.
Qed.

(** X18.  [load_contacts] on a list of records keeps their number and
    order, leaves the undo log and the disk alone, never overwrites a
    key that the file has, and fills each missing key: [id] with the
    fresh id drawn for that record, [category] with ["Other"], [notes]
    with the empty string, [last_modified] with the current time. *)
Theorem load_contacts_backfills
    (uuid4 now : nat -> string) (records : list json_record) (s : store) :
  let r := load_contacts uuid4 now (JsonList records) s in
  fst (fst r) = contacts (snd r)
  /\ undo_stack (snd r) = undo_stack s
  /\ files (snd r) = files s
  /\ length (contacts (snd r)) = length records
  /\ forall k rec,
       nth_error records k = Some rec ->
       exists c,
         nth_error (contacts (snd r)) k = Some c
         /\ c_name c = j_name rec /\ c_phone c = j_phone rec
         /\ c_email c = j_email rec
         /\ c_id c = match j_id rec with Some v => v | None => uuid4 k end
         /\ c_category c
            = match j_category rec with Some v => v | None => "Other" end
         /\ c_notes c = match j_notes rec with Some v => v | None => "" end
         /\ c_last_modified c
            = match j_last_modified rec with Some v => v | None => now k end.
Proof.
  cbv zeta. cbn [load_contacts fst snd contacts undo_stack files].
  repeat split; [apply load_loop_length|].
  intros k rec Hk. exists (backfill (uuid4 k) (now k) rec).
  split; [exact (load_loop_nth uuid4 now records 0 k rec Hk)|].
  repeat split.
Qed.

(** ** The add form of the window *)

Section FormFacts.

Context {ext : Externals}.

Lemma validate_inputs_verdict name phone email :
  fst (validate_inputs name phone email) = true ->
  validate_inputs name phone email = (true, "").
Proof.
  unfold validate_inputs.
  destruct (Py.truthy (Py.strip name)); cbn [negb]; [|discriminate].
  destruct (name_pattern (Py.strip name)); cbn [negb]; [|discriminate].
  destruct (phonenumbers_parse (Py.strip phone)) as [n|]; [|discriminate].
  destruct (is_valid_number n); cbn [negb]; [|discriminate].
  destruct (Py.truthy (Py.strip email)); [|reflexivity].
  destruct (validate_email (Py.strip email)); [discriminate | reflexivity].
Qed.

Lemma validate_inputs_ignores_padding_eq name phone email :
  validate_inputs (Py.strip name) (Py.strip phone) (Py.strip email)
  = validate_inputs name phone email.
Proof. unfold validate_inputs. now rewrite !strip_idempotent. Qed.

End FormFacts.

(** X19.  In the add form, when the stripped entries match a stored
    record per [is_duplicate], the store is left as it was whatever the
    answer to "Add anyway?": after the answer yes, [add_contact] runs
    the same check again and the form reports that the duplicate was
    not added. *)
Theorem gui_add_contact_duplicate_never_added {ext : Externals}
    (uuid now stamp : string)
    (name_entry phone_entry email_entry category_combobox notes_text : string)
    (s : store) :
  is_duplicate s (Py.strip name_entry) (Py.strip phone_entry)
    (Py.strip email_entry) = true ->
  (forall add_anyway,
     snd (gui_add_contact uuid now stamp name_entry phone_entry email_entry
            category_combobox notes_text add_anyway s) = s)
  /\ (fst (validate_inputs name_entry phone_entry email_entry) = true ->
      gui_add_contact uuid now stamp name_entry phone_entry email_entry
        category_combobox notes_text true s
      = ([AskYesNo "Duplicate Detected" "A similar contact exists. Add anyway?";
          Status "Duplicate contact detected.";
          ShowWarning "Warning" "Duplicate contact not added."], s)).
Proof.
  intros Hdup. split.
  - intros add_anyway. unfold gui_add_contact.
    destruct (validate_inputs (Py.strip name_entry) (Py.strip phone_entry)
                (Py.strip email_entry)) as [ok msg].
    destruct ok; cbn [negb]; [|reflexivity].
    rewrite Hdup. destruct add_anyway; cbn [negb andb]; [|reflexivity].
    unfold add_contact. now rewrite Hdup.
  - intros Hv. apply validate_inputs_verdict in Hv.
    rewrite <- validate_inputs_ignores_padding_eq in Hv.
    unfold gui_add_contact. rewrite Hv, Hdup. cbn [negb andb].
    unfold add_contact. now rewrite Hdup.
Qed.

Lemma gui_add_contact_duplicate_never_added_witness :
  snd (gui_add_contact (ext := Reference.externals) "id-2"
         "2024-02-01T09:00:00" "20240201_090000" " jane doe " "+442079460958"
         "" "Other" "" true Samples.jane_store)
  = Samples.jane_store.
Proof.
  apply (proj1 (gui_add_contact_duplicate_never_added
                  (ext := Reference.externals) "id-2" "2024-02-01T09:00:00"
                  "20240201_090000" " jane doe " "+442079460958" "" "Other" ""
                  Samples.jane_store eq_refl)).
Defined.

(** X20.  The add form changes the store only when the entries pass
    [validate_inputs] and match no stored record; the record it then
    appends holds the stripped name, phone, email and notes and the
    selected category, and the last value set on the status bar is
    ["Fields cleared."]. *)
Theorem gui_add_contact_changes_only_when_clean {ext : Externals}
    (uuid now stamp : string)
    (name_entry phone_entry email_entry category_combobox notes_text : string)
    (add_anyway : bool) (s : store) :
  let r := gui_add_contact uuid now stamp name_entry phone_entry email_entry
             category_combobox notes_text add_anyway s in
  snd r <> s ->
  validate_inputs name_entry phone_entry email_entry = (true, "")
  /\ is_duplicate s (Py.strip name_entry) (Py.strip phone_entry)
       (Py.strip email_entry) = false
  /\ contacts (snd r)
     = contacts s
       ++ [mkContact uuid (Py.strip name_entry) (Py.strip phone_entry)
             (Py.strip email_entry) category_combobox (Py.strip notes_text)
             now]
  /\ fst r = [Status "Contact added successfully.";
              ShowInfo "Success" "Contact added successfully.";
              Status "Fields cleared."; UpdateContactTable].
Proof.
  cbv zeta. unfold gui_add_contact.
  rewrite <- (validate_inputs_ignores_padding_eq name_entry phone_entry
                email_entry).
  destruct (validate_inputs (Py.strip name_entry) (Py.strip phone_entry)
              (Py.strip email_entry)) as [ok msg] eqn:Hv.
  destruct ok; cbn [negb]; [|intros H; now elim H].
  assert (Hmsg : msg = "").
  { pose proof (validate_inputs_verdict _ _ _ (f_equal fst Hv)) as H.
    congruence. }
  subst msg.
  destruct (is_duplicate s (Py.strip name_entry) (Py.strip phone_entry)
              (Py.strip email_entry)) eqn:Hdup.
  - destruct add_anyway; cbn [negb andb]; [|intros H; now elim H].
    unfold add_contact. rewrite Hdup. intros H. now elim H.
  - cbn [andb]. unfold add_contact. rewrite Hdup. cbn [fst snd].
    intros _. rewrite save_contacts_contacts. now repeat split.
Qed.

Lemma gui_add_contact_changes_only_when_clean_witness :
  contacts
    (snd (gui_add_contact (ext := Reference.externals) "id-9"
            "2024-02-01T09:00:00" "20240201_090000" "  Omar Said "
            " +442079460958" "" "Family" " cousin " false Samples.jane_store))
  = [Samples.jane;
     mkContact "id-9" "Omar Said" "+442079460958" "" "Family" "cousin"
               "2024-02-01T09:00:00"].
Proof.
  pose proof (gui_add_contact_changes_only_when_clean
                (ext := Reference.externals) "id-9" "2024-02-01T09:00:00"
                "20240201_090000" "  Omar Said " " +442079460958" ""
                "Family" " cousin " false Samples.jane_store) as H.
  cbv zeta in H. destruct H as (_ & _ & Hcs & _).
  - vm_compute. discriminate.
  - rewrite Hcs. reflexivity.
Defined.

(** ** Pages of the table *)

Lemma firstn_skipn_add {A : Type} (a b : nat) (l : list A) :
  firstn a l ++ firstn b (skipn a l) = firstn (a + b) l.
Proof.
  revert l. induction a as [|a IH]; intros l; [reflexivity|].
  destruct l as [|x r]; cbn.
  - now rewrite firstn_nil.
  - now rewrite IH.
Qed.

Lemma page_rows_slice p (cs : list contact) :
  page_rows (S p) cs
  = firstn contacts_per_page (skipn (p * contacts_per_page) cs).
Proof.
  unfold page_rows. cbn [Nat.sub]. rewrite Nat.sub_0_r.
  now replace (p * contacts_per_page + contacts_per_page
               - p * contacts_per_page) with contacts_per_page by lia.
Qed.

Lemma pages_upto_firstn n (cs : list contact) :
  pages_upto n cs = firstn (n * contacts_per_page) cs.
Proof.
  unfold pages_upto. induction n as [|n IH]; [reflexivity|].
  rewrite seq_S, flat_map_app, IH. cbn [flat_map Nat.add].
  rewrite app_nil_r, page_rows_slice, firstn_skipn_add.
  f_equal. lia.
Qed.

Lemma max_pages_bound n p :
  1 <= p ->
  (p <= (n + contacts_per_page - 1) / contacts_per_page
   <-> (p - 1) * contacts_per_page < n).
Proof.
  unfold contacts_per_page. intros Hp.
  pose proof (Nat.div_mod_eq (n + 20 - 1) 20) as Hd.
  pose proof (Nat.mod_upper_bound (n + 20 - 1) 20) as Hm.
  remember ((n + 20 - 1) / 20) as q. remember ((n + 20 - 1) mod 20) as m.
  lia.
Qed.

(** X21.  The pages 1 to [max_pages], one after the other, are the list:
    every record is on exactly one page, in order.  Row [j] of page [p]
    is record [(p - 1) * 20 + j] of the list; a page has at most 20
    rows, has rows exactly when its number is at most [max_pages], and
    a page number past the last page shows an empty table. *)
Theorem pages_cover_the_list (cs : list contact) :
  pages_upto (max_pages cs) cs = cs
  /\ forall p, 1 <= p ->
       length (page_rows p cs)
       = Nat.min contacts_per_page (length cs - (p - 1) * contacts_per_page)
       /\ (forall j, j < contacts_per_page ->
             nth_error (page_rows p cs) j
             = nth_error cs ((p - 1) * contacts_per_page + j))
       /\ (page_rows p cs <> [] <-> p <= max_pages cs)
       /\ (max_pages cs < p -> page_rows p cs = []).
Proof.
  split.
  - rewrite pages_upto_firstn. apply firstn_all2. unfold max_pages.
    pose proof (Nat.div_mod_eq (length cs + contacts_per_page - 1)
                  contacts_per_page) as Hd.
    pose proof (Nat.mod_upper_bound (length cs + contacts_per_page - 1)
                  contacts_per_page) as Hm.
    unfold contacts_per_page in *.
    remember ((length cs + 20 - 1) / 20) as q.
    remember ((length cs + 20 - 1) mod 20) as m. lia.
  - intros p Hp. destruct p as [|p]; [lia|].
    rewrite page_rows_slice. cbn [Nat.sub]. rewrite Nat.sub_0_r.
    assert (Hlen : length (firstn contacts_per_page
                             (skipn (p * contacts_per_page) cs))
                   = Nat.min contacts_per_page
                       (length cs - p * contacts_per_page)).
    { now rewrite length_firstn, length_skipn. }
    assert (Hiff : firstn contacts_per_page (skipn (p * contacts_per_page) cs)
                   <> [] <-> S p <= max_pages cs).
    { unfold max_pages. rewrite max_pages_bound by lia.
      cbn [Nat.sub]. rewrite Nat.sub_0_r.
      destruct (firstn contacts_per_page (skipn (p * contacts_per_page) cs))
        as [|x r] eqn:E; cbn [length] in Hlen; unfold contacts_per_page in *.
      - split; [intros H; now elim H | lia].
      - split; [lia | discriminate]. }
    split; [exact Hlen|]. split; [|split; [exact Hiff|]].
    + intros j Hj. rewrite nth_error_firstn.
      destruct (Nat.ltb_spec j contacts_per_page) as [_|H]; [|lia].
      now rewrite nth_error_skipn.
    + intros Hgt.
      destruct (firstn contacts_per_page (skipn (p * contacts_per_page) cs))
        as [|x r] eqn:E; [reflexivity|].
      assert (H : S p <= max_pages cs) by (apply Hiff; discriminate). lia.
Qed.

(** X22.  [next_page] and [prev_page] keep the page number between 1 and
    the page count shown on the label: [next_page] moves by one exactly
    when the current page is before the last one, and [prev_page]
    exactly when it is after the first. *)
Theorem page_navigation_in_range (current_page : nat) (cs : list contact) :
  1 <= current_page -> current_page <= page_total cs ->
  1 <= next_page current_page cs <= page_total cs
  /\ 1 <= prev_page current_page <= page_total cs
  /\ (next_page current_page cs = current_page + 1
      <-> current_page < max_pages cs)
  /\ (prev_page current_page = current_page - 1 <-> 1 < current_page).
Proof.
  intros H1 H2. unfold next_page, prev_page, page_total in *.
  fold (max_pages cs) in *.
  destruct (Nat.ltb_spec current_page (max_pages cs));
    destruct (Nat.ltb_spec 1 current_page); lia.
Qed.

Lemma page_navigation_in_range_witness :
  1 <= next_page 3 MoreSamples.many <= page_total MoreSamples.many
  /\ next_page 3 MoreSamples.many = 3
  /\ next_page 2 MoreSamples.many = 3.
Proof.
  destruct (page_navigation_in_range 3 MoreSamples.many) as (H & _).
  - lia.
  - vm_compute. lia.
  - split; [exact H|]. split; reflexivity.
Defined.

(** ** Going back through a backup *)

(** X23.  After a call that reports a change on a store whose file
    equals its list, [restore_backup] on the backup which that call
    wrote returns [True] and brings back the record list from before
    the call; this also holds when the call was itself a restore, which
    [undo] does not revert. *)
Theorem restore_written_backup_reverts {ext : Externals}
    (c : command) (stamp' : string) (s : store) :
  synced s ->
  fst (exec c s) = true ->
  let s1 := snd (exec c s) in
  let r := restore_backup stamp'
             (backup_of_disk (files s1)
                (backup_name (filename s) (stamp_of c))) s1 in
  fst (fst r) = true
  /\ contacts (snd r) = contacts s
  /\ synced (snd r).
Proof.
  intros Hs Hok. cbv zeta.
  destruct (exec_saves_or_skips c s) as [[Hf _]|[_ [s0 [-> [Hfn Hfiles]]]]];
    [congruence|].
  pose proof (save_contacts_backup_read (stamp_of c) s0 (contacts s)) as Hb.
  rewrite Hfn, Hfiles in Hb. unfold backup_of_disk. rewrite (Hb Hs).
  cbn [restore_backup fst snd]. split; [reflexivity|].
  split; [reflexivity | apply save_contacts_synced].
Qed.

Lemma restore_written_backup_reverts_witness :
  contacts
    (snd (restore_backup "20240801_100100"
            (backup_of_disk
               (files (snd (exec (ext := Reference.externals)
                              (CmdRestore "20240801_100000" [Samples.omar])
                              Samples.jane_store)))
               (backup_name "contacts.json" "20240801_100000"))
            (snd (exec (ext := Reference.externals)
                    (CmdRestore "20240801_100000" [Samples.omar])
                    Samples.jane_store))))
  = [Samples.jane].
Proof.
  pose proof (restore_written_backup_reverts (ext := Reference.externals)
                (CmdRestore "20240801_100000" [Samples.omar])
                "20240801_100100" Samples.jane_store) as H.
  cbv zeta in H. destruct H as (_ & Hcs & _); [reflexivity | reflexivity|].
  exact Hcs.
Defined.

(** ** The update form *)

Lemma conflict_loop_no_conflict contact_id name answer cs :
  (forall c, In c cs -> c_id c <> contact_id ->
             Py.lower (c_name c) <> Py.lower name) ->
  forall k, conflict_loop contact_id name answer k cs = (true, []).
Proof.
  induction cs as [|c r IH]; intros Hno k; cbn [conflict_loop]; [reflexivity|].
  destruct (String.eqb_spec (c_id c) contact_id) as [E|E]; cbn [negb andb].
  - apply IH. intros x Hx. apply Hno. now right.
  - destruct (String.eqb_spec (Py.lower (c_name c)) (Py.lower name)) as [N|N].
    + exfalso. apply (Hno c); [now left | exact E | exact N].
    + apply IH. intros x Hx. apply Hno. now right.
Qed.

(** X24.  In the update form, when a row is selected whose id is in the
    store, the entries pass [validate_inputs] and no other record has
    the entered name up to letter case, the update is made without any
    question: the form looks for name conflicts only, so a phone or an
    email that another record already has is accepted. *)
Theorem gui_update_contact_checks_names_only {ext : Externals}
    (now stamp contact_id : string)
    (name_entry phone_entry email_entry category_combobox notes_text : string)
    (answer : nat -> bool) (s : store) :
  In contact_id (ids (contacts s)) ->
  fst (validate_inputs name_entry phone_entry email_entry) = true ->
  (forall c, In c (contacts s) -> c_id c <> contact_id ->
             Py.lower (c_name c) <> Py.lower (Py.strip name_entry)) ->
  gui_update_contact now stamp (Some contact_id) name_entry phone_entry
    email_entry category_combobox notes_text answer s
  = ([Status "Contact updated successfully.";
      ShowInfo "Success" "Contact updated successfully.";
      Status "Fields cleared."; UpdateContactTable],
     snd (update_contact now stamp contact_id (Py.strip name_entry)
            (Py.strip phone_entry) (Py.strip email_entry) category_combobox
            (Py.strip notes_text) s))
  /\ In (mkContact contact_id (Py.strip name_entry) (Py.strip phone_entry)
           (Py.strip email_entry) category_combobox (Py.strip notes_text) now)
        (contacts
           (snd (gui_update_contact now stamp (Some contact_id) name_entry
                   phone_entry email_entry category_combobox notes_text
                   answer s))).
Proof.
  intros Hin Hv Hno.
  apply validate_inputs_verdict in Hv.
  rewrite <- validate_inputs_ignores_padding_eq in Hv.
  destruct (first_with_id_split _ _ Hin) as (pre & c & post & Hcs & Hc & Hpre).
  assert (Hgui :
    gui_update_contact now stamp (Some contact_id) name_entry phone_entry
      email_entry category_combobox notes_text answer s
    = ([Status "Contact updated successfully.";
        ShowInfo "Success" "Contact updated successfully.";
        Status "Fields cleared."; UpdateContactTable],
       snd (update_contact now stamp contact_id (Py.strip name_entry)
              (Py.strip phone_entry) (Py.strip email_entry) category_combobox
              (Py.strip notes_text) s))).
  { unfold gui_update_contact. rewrite Hv. cbn [negb]. unfold view_contacts.
    rewrite (conflict_loop_no_conflict _ _ answer _ Hno). cbn [negb].
    rewrite (update_contact_split _ _ _ _ _ _ _ _ _ _ _ _ Hcs Hc Hpre).
    reflexivity. }
  split; [exact Hgui|].
  rewrite Hgui, (update_contact_split _ _ _ _ _ _ _ _ _ _ _ _ Hcs Hc Hpre).
  cbn [snd]. rewrite save_contacts_contacts. cbn [contacts].
  apply in_or_app. right. now left.
Qed.

Lemma gui_update_contact_checks_names_only_witness :
  map c_phone
    (contacts
       (snd (gui_update_contact (ext := Reference.externals)
               "2024-09-01T10:00:00" "20240901_100000" (Some "id-kim")
               "Kim Lee" "+14155552671" "" "Work" "" (fun _ => false)
               MoreSamples.shared_phone_store)))
  = ["+14155552671"; "+14155552671"].
Proof.
  destruct (gui_update_contact_checks_names_only (ext := Reference.externals)
              "2024-09-01T10:00:00" "20240901_100000" "id-kim"
              "Kim Lee" "+14155552671" "" "Work" "" (fun _ => false)
              MoreSamples.shared_phone_store) as [Hgui _].
  - cbn. tauto.
  - reflexivity.
  - intros c Hc Hid. cbn in Hc. destruct Hc as [<-|[<-|[]]].
    + vm_compute. discriminate.
    + now elim Hid.
  - rewrite Hgui. reflexivity.
Defined.

(** X25.  In the update form nothing is changed when no row is
    selected, when the entries fail [validate_inputs], or when every
    name-conflict question is answered no and one is asked. *)
Theorem gui_update_contact_leaves_store {ext : Externals}
    (now stamp : string) (selected : option string)
    (name_entry phone_entry email_entry category_combobox notes_text : string)
    (answer : nat -> bool) (s : store) :
  (snd (gui_update_contact now stamp None name_entry phone_entry email_entry
          category_combobox notes_text answer s) = s)
  /\ (fst (validate_inputs name_entry phone_entry email_entry) = false ->
      snd (gui_update_contact now stamp selected name_entry phone_entry
             email_entry category_combobox notes_text answer s) = s)
  /\ (forall contact_id other,
        In other (contacts s) -> c_id other <> contact_id ->
        Py.lower (c_name other) = Py.lower (Py.strip name_entry) ->
        snd (gui_update_contact now stamp (Some contact_id) name_entry
               phone_entry email_entry category_combobox notes_text
               (fun _ => false) s) = s).
Proof.
  split; [reflexivity|]. split.
  - intros Hv. rewrite <- validate_inputs_ignores_padding_eq in Hv.
    unfold gui_update_contact. destruct selected as [contact_id|]; [|reflexivity].
    destruct (validate_inputs (Py.strip name_entry) (Py.strip phone_entry)
                (Py.strip email_entry)) as [ok msg].
    cbn [fst] in Hv. subst ok. reflexivity.
  - intros contact_id other Hin Hid Hname. unfold gui_update_contact.
    destruct (validate_inputs (Py.strip name_entry) (Py.strip phone_entry)
                (Py.strip email_entry)) as [ok msg].
    destruct ok; cbn [negb]; [|reflexivity].
    unfold view_contacts.
    assert (Hstop : fst (conflict_loop contact_id (Py.strip name_entry)
                           (fun _ => false) 0 (contacts s)) = false).
    { generalize 0. induction (contacts s) as [|c r IH]; [now elim Hin|].
      intros k. cbn [conflict_loop].
      destruct (negb (c_id c =? contact_id)%string
                && (Py.lower (c_name c)
                    =? Py.lower (Py.strip name_entry))%string) eqn:E;
        [reflexivity|].
      destruct Hin as [->|Hin].
      - exfalso. rewrite Hname, String.eqb_refl, andb_true_r in E.
        apply negb_false_iff, String.eqb_eq in E. now elim Hid.
      - now apply IH. }
    destruct (conflict_loop contact_id (Py.strip name_entry)
                (fun _ => false) 0 (contacts s)) as [go asked].
    cbn [fst] in Hstop. subst go. reflexivity.
Qed.
